(** * Shallow embedding of the SDL2/Vulkan example renderer (src/main.cpp)

    The development follows the single translation unit [main.cpp]:
    - the swapchain sizing helpers [getNumberOfSwapImages] and
      [getSwapImageSize] as pure functions on 32-bit unsigned values;
    - the Vulkan calls as an oracle [Env] that answers each call with a
      [VkResult], and the program as a state/exception monad over the
      variables of [main] with a trace of the API calls it issues. *)

From Stdlib Require Import String ZArith Arith Lia Bool List.
Import ListNotations.

Open Scope Z_scope.

(** ** 32-bit unsigned arithmetic *)

Definition u32_modulus : Z := 2 ^ 32.

Definition u32 (z : Z) : Z := z mod u32_modulus.

Definition is_u32 (z : Z) : Prop := 0 <= z < u32_modulus.

(** ** Surface capabilities *)

Record VkExtent2D := mkExtent2D { width : Z; height : Z }.

Record VkSurfaceCapabilitiesKHR := mkCaps {
  minImageCount : Z;
  maxImageCount : Z;
  currentExtent : VkExtent2D;
  minImageExtent : VkExtent2D;
  maxImageExtent : VkExtent2D
}.

Definition caps_u32 (c : VkSurfaceCapabilitiesKHR) : Prop :=
  is_u32 (minImageCount c) /\ is_u32 (maxImageCount c).

(** [int windowWidth = 1280; int windowHeight = 720;] *)
Definition windowWidth : Z := 1280.
Definition windowHeight : Z := 720.

(** [template<typename T> T clamp(T value, T min, T max)] *)
Definition clamp (value min max : Z) : Z :=
  if value <? min then min else if max <? value then max else value.

(** [unsigned int number = capabilities.minImageCount + 1;
     return number > capabilities.maxImageCount ? capabilities.minImageCount : number;]
    The addition is on [unsigned int], so it wraps modulo 2^32. *)
Definition getNumberOfSwapImages (capabilities : VkSurfaceCapabilitiesKHR) : Z :=
  let number := u32 (minImageCount capabilities + 1) in
  if maxImageCount capabilities <? number then minImageCount capabilities else number.

(** [getSwapImageSize]: the window size, clamped to the image extents when
    [currentExtent.width == 0xFFFFFFF]; otherwise [currentExtent]. *)
Definition getSwapImageSize (capabilities : VkSurfaceCapabilitiesKHR) : VkExtent2D :=
  let size := mkExtent2D windowWidth windowHeight in
  if width (currentExtent capabilities) =? 0xFFFFFFF then
    mkExtent2D
      (clamp (width size) (width (minImageExtent capabilities)) (width (maxImageExtent capabilities)))
      (clamp (height size) (height (minImageExtent capabilities)) (height (maxImageExtent capabilities)))
  else currentExtent capabilities.

(** ** Vulkan results, calls and handles

    Handles are natural numbers; [0] is [VK_NULL_HANDLE] and also stands for
    the unspecified handle a failed creation call leaves behind. *)

Inductive VkResult :=
| VK_SUCCESS
| VK_NOT_READY
| VK_TIMEOUT
| VK_SUBOPTIMAL_KHR
| VK_ERROR_OUT_OF_HOST_MEMORY
| VK_ERROR_OUT_OF_DEVICE_MEMORY
| VK_ERROR_DEVICE_LOST
| VK_ERROR_SURFACE_LOST_KHR
| VK_ERROR_OUT_OF_DATE_KHR.

Definition is_success (r : VkResult) : bool :=
  match r with VK_SUCCESS => true | _ => false end.

Definition is_out_of_date (r : VkResult) : bool :=
  match r with VK_ERROR_OUT_OF_DATE_KHR => true | _ => false end.

Definition VK_NULL_HANDLE : nat := 0.

(** The API entry points whose [VkResult] the driver decides. *)
Inductive Call :=
| CallGetSurfaceCapabilities
| CallGetPresentModes
| CallGetSurfaceFormats
| CallCreateSwapchain
| CallGetSwapchainImages
| CallCreateImageView
| CallCreateFramebuffer
| CallCreateImage
| CallAllocateMemory
| CallBindImageMemory
| CallBindBufferMemory
| CallAllocateCommandBuffers
| CallBeginCommandBuffer
| CallEndCommandBuffer
| CallQueueSubmit
| CallQueueWaitIdle
| CallQueuePresent
| CallAcquireNextImage
| CallResetFences
| CallWaitForFences
| CallDeviceWaitIdle
| CallResetCommandBuffer
| CallCreateDescriptorPool
| CallAllocateDescriptorSets
| CallCreateBuffer.

Scheme Equality for Call.

Inductive Kind :=
| KSwapchain | KImage | KImageView | KFramebuffer | KDeviceMemory
| KCommandBuffer | KDescriptorPool | KDescriptorSet | KBuffer.

(** Commands recorded into a command buffer ([vkCmd*]). *)
Inductive Cmd :=
| CmdBeginRenderPass (renderPass framebuffer : nat)
| CmdBindPipeline (pipeline : nat)
| CmdBindDescriptorSets (layout set : nat)
| CmdBindVertexBuffers (buffer : nat)
| CmdDraw (vertexCount instanceCount firstVertex firstInstance : nat)
| CmdEndRenderPass
| CmdPipelineBarrier (image : nat).

Definition VK_PIPELINE_STAGE_COLOR_ATTACHMENT_OUTPUT_BIT : nat := 1024.

Record VkSubmitInfo := mkSubmitInfo {
  pCommandBuffers : list nat;
  pWaitSemaphores : list nat;
  pWaitDstStageMask : list nat;
  pSignalSemaphores : list nat
}.

Record VkPresentInfoKHR := mkPresentInfo {
  presentWaitSemaphores : list nat;
  pSwapchains : list nat;
  pImageIndices : list nat
}.

(** One entry per API call the program makes, in program order. *)
Inductive Event :=
| EvCall (c : Call) (r : VkResult)
| EvCreate (k : Kind) (h : nat) (r : VkResult)
| EvDestroy (k : Kind) (h : nat)
| EvBindMemory (k : Kind) (h mem : nat) (r : VkResult)
| EvBeginCommandBuffer (cb : nat) (r : VkResult)
| EvCmd (cb : nat) (c : Cmd)
| EvEndCommandBuffer (cb : nat) (r : VkResult)
| EvQueueSubmit (queue : nat) (info : VkSubmitInfo) (r : VkResult)
| EvQueueWaitIdle (queue : nat) (r : VkResult)
| EvAcquireNextImage (swapchain semaphore fence : nat) (r : VkResult) (index : nat)
| EvQueuePresent (queue : nat) (info : VkPresentInfoKHR) (r : VkResult)
| EvDeviceWaitIdle (r : VkResult)
| EvResetFences (fence : nat) (r : VkResult)
| EvWaitForFences (fence : nat) (r : VkResult)
| EvResetCommandBuffer (cb : nat) (r : VkResult).

(** ** The environment: objects built once by [main] and the driver.

    [result_of c k] is the result of call [c] when it is the [k]-th checked
    call of the run; [acquired_index k c] is the image index the [k]-th
    [vkAcquireNextImageKHR] returns on the [c]-th swapchain;
    [swap_image_count c] is the image count of the [c]-th swapchain;
    [depth_format_supported] is the tiling feature test of
    [createDepthBuffer] and [memory_type_found] whether [findMemoryType]
    finds a memory type. *)
Record Env := mkEnv {
  graphicsQueue : nat;
  presentationQueue : nat;
  renderPass : nat;
  pipelineLayout : nat;
  pipeline : nat;
  descriptorSet : nat;
  vertexBuffer : nat;
  imageAvailableSemaphore : nat;
  renderFinishedSemaphore : nat;
  fence : nat;
  result_of : Call -> nat -> VkResult;
  acquired_index : nat -> nat -> nat;
  swap_image_count : nat -> nat;
  depth_format_supported : bool;
  memory_type_found : bool
}.

(** ** The program state: the swapchain variables of [main] plus the run's
    bookkeeping (current swapchain number, counters, fresh handle, trace). *)
Record Loop := mkLoop {
  swapchain : nat;
  chainImages : list nat;
  chainImageViews : list nat;
  frameBuffers : list nat;
  commandBuffers : list nat;
  depthImageView : nat;
  depthImage : nat;
  depthMemory : nat;
  nextImage : nat;
  chain_id : nat;
  nchains : nat;
  nacquires : nat;
  ncalls : nat;
  fresh : nat;
  trace : list Event
}.

Definition set_swapchain v (s : Loop) : Loop :=
  {| swapchain := v; chainImages := chainImages s; chainImageViews := chainImageViews s; frameBuffers := frameBuffers s; commandBuffers := commandBuffers s; depthImageView := depthImageView s; depthImage := depthImage s; depthMemory := depthMemory s; nextImage := nextImage s; chain_id := chain_id s; nchains := nchains s; nacquires := nacquires s; ncalls := ncalls s; fresh := fresh s; trace := trace s |}.
Definition set_chainImages v (s : Loop) : Loop :=
  {| swapchain := swapchain s; chainImages := v; chainImageViews := chainImageViews s; frameBuffers := frameBuffers s; commandBuffers := commandBuffers s; depthImageView := depthImageView s; depthImage := depthImage s; depthMemory := depthMemory s; nextImage := nextImage s; chain_id := chain_id s; nchains := nchains s; nacquires := nacquires s; ncalls := ncalls s; fresh := fresh s; trace := trace s |}.
Definition set_chainImageViews v (s : Loop) : Loop :=
  {| swapchain := swapchain s; chainImages := chainImages s; chainImageViews := v; frameBuffers := frameBuffers s; commandBuffers := commandBuffers s; depthImageView := depthImageView s; depthImage := depthImage s; depthMemory := depthMemory s; nextImage := nextImage s; chain_id := chain_id s; nchains := nchains s; nacquires := nacquires s; ncalls := ncalls s; fresh := fresh s; trace := trace s |}.
Definition set_frameBuffers v (s : Loop) : Loop :=
  {| swapchain := swapchain s; chainImages := chainImages s; chainImageViews := chainImageViews s; frameBuffers := v; commandBuffers := commandBuffers s; depthImageView := depthImageView s; depthImage := depthImage s; depthMemory := depthMemory s; nextImage := nextImage s; chain_id := chain_id s; nchains := nchains s; nacquires := nacquires s; ncalls := ncalls s; fresh := fresh s; trace := trace s |}.
Definition set_commandBuffers v (s : Loop) : Loop :=
  {| swapchain := swapchain s; chainImages := chainImages s; chainImageViews := chainImageViews s; frameBuffers := frameBuffers s; commandBuffers := v; depthImageView := depthImageView s; depthImage := depthImage s; depthMemory := depthMemory s; nextImage := nextImage s; chain_id := chain_id s; nchains := nchains s; nacquires := nacquires s; ncalls := ncalls s; fresh := fresh s; trace := trace s |}.
Definition set_depthImageView v (s : Loop) : Loop :=
  {| swapchain := swapchain s; chainImages := chainImages s; chainImageViews := chainImageViews s; frameBuffers := frameBuffers s; commandBuffers := commandBuffers s; depthImageView := v; depthImage := depthImage s; depthMemory := depthMemory s; nextImage := nextImage s; chain_id := chain_id s; nchains := nchains s; nacquires := nacquires s; ncalls := ncalls s; fresh := fresh s; trace := trace s |}.
Definition set_depthImage v (s : Loop) : Loop :=
  {| swapchain := swapchain s; chainImages := chainImages s; chainImageViews := chainImageViews s; frameBuffers := frameBuffers s; commandBuffers := commandBuffers s; depthImageView := depthImageView s; depthImage := v; depthMemory := depthMemory s; nextImage := nextImage s; chain_id := chain_id s; nchains := nchains s; nacquires := nacquires s; ncalls := ncalls s; fresh := fresh s; trace := trace s |}.
Definition set_depthMemory v (s : Loop) : Loop :=
  {| swapchain := swapchain s; chainImages := chainImages s; chainImageViews := chainImageViews s; frameBuffers := frameBuffers s; commandBuffers := commandBuffers s; depthImageView := depthImageView s; depthImage := depthImage s; depthMemory := v; nextImage := nextImage s; chain_id := chain_id s; nchains := nchains s; nacquires := nacquires s; ncalls := ncalls s; fresh := fresh s; trace := trace s |}.
Definition set_nextImage v (s : Loop) : Loop :=
  {| swapchain := swapchain s; chainImages := chainImages s; chainImageViews := chainImageViews s; frameBuffers := frameBuffers s; commandBuffers := commandBuffers s; depthImageView := depthImageView s; depthImage := depthImage s; depthMemory := depthMemory s; nextImage := v; chain_id := chain_id s; nchains := nchains s; nacquires := nacquires s; ncalls := ncalls s; fresh := fresh s; trace := trace s |}.
Definition set_chain_id v (s : Loop) : Loop :=
  {| swapchain := swapchain s; chainImages := chainImages s; chainImageViews := chainImageViews s; frameBuffers := frameBuffers s; commandBuffers := commandBuffers s; depthImageView := depthImageView s; depthImage := depthImage s; depthMemory := depthMemory s; nextImage := nextImage s; chain_id := v; nchains := nchains s; nacquires := nacquires s; ncalls := ncalls s; fresh := fresh s; trace := trace s |}.
Definition set_nchains v (s : Loop) : Loop :=
  {| swapchain := swapchain s; chainImages := chainImages s; chainImageViews := chainImageViews s; frameBuffers := frameBuffers s; commandBuffers := commandBuffers s; depthImageView := depthImageView s; depthImage := depthImage s; depthMemory := depthMemory s; nextImage := nextImage s; chain_id := chain_id s; nchains := v; nacquires := nacquires s; ncalls := ncalls s; fresh := fresh s; trace := trace s |}.
Definition set_nacquires v (s : Loop) : Loop :=
  {| swapchain := swapchain s; chainImages := chainImages s; chainImageViews := chainImageViews s; frameBuffers := frameBuffers s; commandBuffers := commandBuffers s; depthImageView := depthImageView s; depthImage := depthImage s; depthMemory := depthMemory s; nextImage := nextImage s; chain_id := chain_id s; nchains := nchains s; nacquires := v; ncalls := ncalls s; fresh := fresh s; trace := trace s |}.
Definition set_ncalls v (s : Loop) : Loop :=
  {| swapchain := swapchain s; chainImages := chainImages s; chainImageViews := chainImageViews s; frameBuffers := frameBuffers s; commandBuffers := commandBuffers s; depthImageView := depthImageView s; depthImage := depthImage s; depthMemory := depthMemory s; nextImage := nextImage s; chain_id := chain_id s; nchains := nchains s; nacquires := nacquires s; ncalls := v; fresh := fresh s; trace := trace s |}.
Definition set_fresh v (s : Loop) : Loop :=
  {| swapchain := swapchain s; chainImages := chainImages s; chainImageViews := chainImageViews s; frameBuffers := frameBuffers s; commandBuffers := commandBuffers s; depthImageView := depthImageView s; depthImage := depthImage s; depthMemory := depthMemory s; nextImage := nextImage s; chain_id := chain_id s; nchains := nchains s; nacquires := nacquires s; ncalls := ncalls s; fresh := v; trace := trace s |}.
Definition set_trace v (s : Loop) : Loop :=
  {| swapchain := swapchain s; chainImages := chainImages s; chainImageViews := chainImageViews s; frameBuffers := frameBuffers s; commandBuffers := commandBuffers s; depthImageView := depthImageView s; depthImage := depthImage s; depthMemory := depthMemory s; nextImage := nextImage s; chain_id := chain_id s; nchains := nchains s; nacquires := nacquires s; ncalls := ncalls s; fresh := fresh s; trace := v |}.

Arguments set_swapchain _ _ /.
Arguments set_chainImages _ _ /.
Arguments set_chainImageViews _ _ /.
Arguments set_frameBuffers _ _ /.
Arguments set_commandBuffers _ _ /.
Arguments set_depthImageView _ _ /.
Arguments set_depthImage _ _ /.
Arguments set_depthMemory _ _ /.
Arguments set_nextImage _ _ /.
Arguments set_chain_id _ _ /.
Arguments set_nchains _ _ /.
Arguments set_nacquires _ _ /.
Arguments set_ncalls _ _ /.
Arguments set_fresh _ _ /.
Arguments set_trace _ _ /.

Definition init_state : Loop :=
  {| swapchain := VK_NULL_HANDLE; chainImages := []; chainImageViews := [];
     frameBuffers := []; commandBuffers := []; depthImageView := 0;
     depthImage := 0; depthMemory := 0; nextImage := 0; chain_id := 0;
     nchains := 0; nacquires := 0; ncalls := 0; fresh := 1; trace := [] |}.

(** ** State and exception monad

    [Thrown] is an uncaught [std::runtime_error] (the process aborts),
    [Exited] a [return] from [main], [Undefined] an out-of-range
    [std::vector] access. *)
Inductive Res (A : Type) :=
| Done (a : A) (s : Loop)
| Thrown (msg : string) (s : Loop)
| Exited (code : Z) (s : Loop)
| Undefined (s : Loop).
Arguments Done {A}.
Arguments Thrown {A}.
Arguments Exited {A}.
Arguments Undefined {A}.

Definition M (A : Type) : Type := Loop -> Res A.

Definition ret {A} (a : A) : M A := fun s => Done a s.

Definition bind {A B} (m : M A) (k : A -> M B) : M B :=
  fun s => match m s with
           | Done a s' => k a s'
           | Thrown msg s' => Thrown msg s'
           | Exited c s' => Exited c s'
           | Undefined s' => Undefined s'
           end.

Notation "x <- m ;; k" := (bind m (fun x => k))
  (at level 61, m at next level, right associativity).
Notation "m ;; k" := (bind m (fun _ => k)) (at level 61, right associativity).

Definition final_state {A} (r : Res A) : Loop :=
  match r with
  | Done _ s | Thrown _ s | Exited _ s | Undefined s => s
  end.

Definition gets {A} (f : Loop -> A) : M A := fun s => Done (f s) s.
Definition modify (f : Loop -> Loop) : M unit := fun s => Done tt (f s).
Definition throw {A} (msg : string) : M A := fun s => Thrown msg s.
Definition exit {A} (code : Z) : M A := fun s => Exited code s.
Definition undefined {A} : M A := fun s => Undefined s.

Definition emit (e : Event) : M unit :=
  modify (fun s => set_trace (trace s ++ [e]) s).

Definition new_handle : M nat :=
  fun s => Done (fresh s) (set_fresh (S (fresh s)) s).

(** [n] fresh handles (the images of a new swapchain). *)
Definition new_handles (n : nat) : M (list nat) :=
  fun s => Done (seq (fresh s) n) (set_fresh (fresh s + n)%nat s).

(** [v[i]] on a [std::vector]. *)
Definition at_ (l : list nat) (i : nat) : M nat :=
  match nth_error l i with Some x => ret x | None => undefined end.

Fixpoint list_set (l : list nat) (i v : nat) : list nat :=
  match l, i with
  | [], _ => []
  | _ :: t, O => v :: t
  | x :: t, S i' => x :: list_set t i' v
  end.

(** [std::vector::resize]: truncate, or pad with value-initialised handles. *)
Definition resize (l : list nat) (n : nat) : list nat :=
  firstn n l ++ repeat VK_NULL_HANDLE (n - length l).

(** ** The program *)

Section Program.

Variable env : Env.

(** A checked call: the driver's answer for the current call number. *)
Definition api (c : Call) : M VkResult :=
  fun s => Done (result_of env c (ncalls s)) (set_ncalls (S (ncalls s)) s).

(** [vkCreate*] / [vkAllocate*]: a fresh handle on success. *)
Definition vkCreate (k : Kind) (c : Call) : M (VkResult * nat) :=
  r <- api c ;;
  if is_success r then
    h <- new_handle ;; emit (EvCreate k h r) ;; ret (r, h)
  else emit (EvCreate k VK_NULL_HANDLE r) ;; ret (r, VK_NULL_HANDLE).

Definition vkDestroy (k : Kind) (h : nat) : M unit := emit (EvDestroy k h).

Definition vkDeviceWaitIdle : M unit :=
  r <- api CallDeviceWaitIdle ;; emit (EvDeviceWaitIdle r).

(** [uint32_t findMemoryType(...)]: throws when no memory type fits. *)
Definition findMemoryType : M unit :=
  if memory_type_found env then ret tt
  else throw "failed to find suitable memory type!".

(** [bool getSwapChainImageHandles(device, chain, outImageHandles)] *)
Definition getSwapChainImageHandles : M bool :=
  r <- api CallGetSwapchainImages ;; emit (EvCall CallGetSwapchainImages r) ;;
  if negb (is_success r) then ret false else
  cid <- gets chain_id ;;
  let imageCount := swap_image_count env cid in
  modify (set_chainImages (repeat VK_NULL_HANDLE imageCount)) ;;
  r2 <- api CallGetSwapchainImages ;; emit (EvCall CallGetSwapchainImages r2) ;;
  if negb (is_success r2) then ret false else
  images <- new_handles imageCount ;;
  modify (set_chainImages images) ;;
  ret true.

(** The surface queries of [createSwapChain] ([getSurfaceProperties],
    [getPresentationMode], [getSurfaceFormat]); [getImageUsage] succeeds
    for the colour-attachment usage every surface supports. *)
Definition surface_query (c : Call) : M bool :=
  r <- api c ;; emit (EvCall c r) ;; ret (is_success r).

(** [bool createSwapChain(surface, physicalDevice, device, outSwapChain)] *)
Definition createSwapChain : M bool :=
  vkDeviceWaitIdle ;;
  ok <- surface_query CallGetSurfaceCapabilities ;;
  if negb ok then ret false else
  ok <- surface_query CallGetPresentModes ;;
  if negb ok then ret false else
  ok <- surface_query CallGetPresentModes ;;
  if negb ok then ret false else
  ok <- surface_query CallGetSurfaceFormats ;;
  if negb ok then ret false else
  ok <- surface_query CallGetSurfaceFormats ;;
  if negb ok then ret false else
  oldSwapChain <- gets swapchain ;;
  (if Nat.eqb oldSwapChain VK_NULL_HANDLE then ret tt
   else vkDestroy KSwapchain oldSwapChain) ;;
  p <- vkCreate KSwapchain CallCreateSwapchain ;;
  if negb (is_success (fst p)) then ret false else
  n <- gets nchains ;;
  modify (set_swapchain (snd p)) ;;
  modify (set_chain_id n) ;;
  modify (set_nchains (S n)) ;;
  ret true.

(** The loop of [makeChainImageViews], from index [i], [n] iterations left. *)
Fixpoint makeChainImageViews_loop (i n : nat) : M unit :=
  match n with
  | O => ret tt
  | S n' =>
      images <- gets chainImages ;;
      _ <- at_ images i ;;
      views <- gets chainImageViews ;;
      _ <- at_ views i ;;
      p <- vkCreate KImageView CallCreateImageView ;;
      if negb (is_success (fst p)) then throw "failed to create image views!" else
      views <- gets chainImageViews ;;
      modify (set_chainImageViews (list_set views i (snd p))) ;;
      makeChainImageViews_loop (S i) n'
  end.

(** [void makeChainImageViews(device, swapChain, images, imageViews)] *)
Definition makeChainImageViews : M unit :=
  s <- gets (fun s => s) ;;
  modify (set_chainImageViews (resize (chainImageViews s) (length (chainImages s)))) ;;
  makeChainImageViews_loop 0 (length (chainImages s)).

(** The loop of [makeFramebuffers]: [&frameBuffers[i]] is formed for every
    [i < chainImageViews.size()], whatever the size of [frameBuffers]. *)
Fixpoint makeFramebuffers_loop (i n : nat) : M unit :=
  match n with
  | O => ret tt
  | S n' =>
      views <- gets chainImageViews ;;
      _ <- at_ views i ;;
      fbs <- gets frameBuffers ;;
      _ <- at_ fbs i ;;
      p <- vkCreate KFramebuffer CallCreateFramebuffer ;;
      if negb (is_success (fst p)) then throw "failed to create framebuffer!" else
      fbs <- gets frameBuffers ;;
      modify (set_frameBuffers (list_set fbs i (snd p))) ;;
      makeFramebuffers_loop (S i) n'
  end.

(** [void makeFramebuffers(device, renderPass, chainImageViews, frameBuffers, depthImageView)] *)
Definition makeFramebuffers : M unit :=
  n <- gets (fun s => length (chainImageViews s)) ;;
  makeFramebuffers_loop 0 n.

(** [ScopedCommandBuffer::submitAndWait] *)
Definition submitAndWait (commandBuffer : nat) : M unit :=
  r <- api CallEndCommandBuffer ;; emit (EvEndCommandBuffer commandBuffer r) ;;
  if negb (is_success r) then throw "failed to end command buffer" else
  r <- api CallQueueSubmit ;;
  emit (EvQueueSubmit (graphicsQueue env) (mkSubmitInfo [commandBuffer] [] [] []) r) ;;
  if negb (is_success r) then throw "failed submit queue" else
  r <- api CallQueueWaitIdle ;; emit (EvQueueWaitIdle (graphicsQueue env) r) ;;
  if negb (is_success r) then throw "failed wait for queue to be idle" else
  ret tt.

(** [transitionImageLayout] of the depth image (undefined to
    depth-stencil attachment layout); the [ScopedCommandBuffer] constructor
    does not check [vkAllocateCommandBuffers]. *)
Definition transitionImageLayout (image : nat) : M unit :=
  p <- vkCreate KCommandBuffer CallAllocateCommandBuffers ;;
  let commandBuffer := snd p in
  r <- api CallBeginCommandBuffer ;; emit (EvBeginCommandBuffer commandBuffer r) ;;
  if negb (is_success r) then throw "failed to begin recording command buffer" else
  emit (EvCmd commandBuffer (CmdPipelineBarrier image)) ;;
  submitAndWait commandBuffer ;;
  vkDestroy KCommandBuffer commandBuffer.

(** [createDepthBuffer]; assigns [depthImageView], [depthImage], [depthMemory]. *)
Definition createDepthBuffer : M unit :=
  (if depth_format_supported env then ret tt
   else throw "requested format does not have tiling features") ;;
  pi <- vkCreate KImage CallCreateImage ;;
  if negb (is_success (fst pi)) then throw "failed to create depth image" else
  findMemoryType ;;
  pm <- vkCreate KDeviceMemory CallAllocateMemory ;;
  if negb (is_success (fst pm)) then throw "failed to allocate depth buffer memory" else
  r <- api CallBindImageMemory ;; emit (EvBindMemory KImage (snd pi) (snd pm) r) ;;
  if negb (is_success r) then throw "failed to bind depth image memory" else
  pv <- vkCreate KImageView CallCreateImageView ;;
  if negb (is_success (fst pv)) then throw "failed to create texture image views" else
  transitionImageLayout (snd pi) ;;
  modify (set_depthImageView (snd pv)) ;;
  modify (set_depthImage (snd pi)) ;;
  modify (set_depthMemory (snd pm)).

(** [void recordRenderPass(graphicsPipeline, renderPass, framebuffer,
    commandBuffer, vertexBuffer, pipelineLayout, descriptorSet)] *)
Definition recordRenderPass (graphicsPipeline renderPass framebuffer commandBuffer
    vertexBuffer pipelineLayout descriptorSet : nat) : M unit :=
  r <- api CallBeginCommandBuffer ;; emit (EvBeginCommandBuffer commandBuffer r) ;;
  if negb (is_success r) then throw "failed to begin command buffer" else
  emit (EvCmd commandBuffer (CmdBeginRenderPass renderPass framebuffer)) ;;
  emit (EvCmd commandBuffer (CmdBindPipeline graphicsPipeline)) ;;
  emit (EvCmd commandBuffer (CmdBindDescriptorSets pipelineLayout descriptorSet)) ;;
  emit (EvCmd commandBuffer (CmdBindVertexBuffers vertexBuffer)) ;;
  emit (EvCmd commandBuffer (CmdDraw 12 1 0 0)) ;;
  emit (EvCmd commandBuffer CmdEndRenderPass) ;;
  r <- api CallEndCommandBuffer ;; emit (EvEndCommandBuffer commandBuffer r) ;;
  if negb (is_success r) then throw "failed to record command buffer!" else
  ret tt.

(** [void submitCommandBuffer(graphicsQueue, commandBuffer,
    imageAvailableSemaphore, renderFinishedSemaphore)] *)
Definition submitCommandBuffer (queue commandBuffer imageAvailable renderFinished : nat)
  : M unit :=
  let submitInfo :=
    mkSubmitInfo [commandBuffer] [imageAvailable]
      [VK_PIPELINE_STAGE_COLOR_ATTACHMENT_OUTPUT_BIT] [renderFinished] in
  r <- api CallQueueSubmit ;; emit (EvQueueSubmit queue submitInfo r) ;;
  if negb (is_success r) then throw "failed to submit command buffer!" else
  result <- api CallQueueWaitIdle ;; emit (EvQueueWaitIdle queue result) ;;
  if negb (is_success result) then
    throw "failed to wait for the graphics queue to be idle"
  else ret tt.

(** [bool presentQueue(presentQueue, swapchain, renderFinishedSemaphore, nextImage)] *)
Definition presentQueue (queue swapchain renderFinished nextImage : nat) : M bool :=
  let presentInfo := mkPresentInfo [renderFinished] [swapchain] [nextImage] in
  result <- api CallQueuePresent ;; emit (EvQueuePresent queue presentInfo result) ;;
  if is_success result then ret true
  else if is_out_of_date result then ret false
  else throw "failed to present swap chain image!".

Fixpoint destroy_all (k : Kind) (l : list nat) : M unit :=
  match l with
  | [] => ret tt
  | h :: t => vkDestroy k h ;; destroy_all k t
  end.

(** The rebuilding half of the body of [if (!presentQueue(...)) { ... }]
    in [main]: new depth buffer, swapchain, image handles, image views and
    framebuffers. *)
Definition rebuild : M unit :=
  createDepthBuffer ;;
  modify (set_swapchain VK_NULL_HANDLE) ;;
  ok <- createSwapChain ;;
  if negb ok then throw "failed to recreate swap chain" else
  ok <- getSwapChainImageHandles ;;
  if negb ok then throw "failed to re-obtain swap chain images" else
  makeChainImageViews ;;
  makeFramebuffers.

(** The body of [if (!presentQueue(...)) { ... }] in [main]. *)
Definition recreate : M unit :=
  vkDeviceWaitIdle ;;
  fbs <- gets frameBuffers ;; destroy_all KFramebuffer fbs ;;
  views <- gets chainImageViews ;; destroy_all KImageView views ;;
  sc <- gets swapchain ;; vkDestroy KSwapchain sc ;;
  s <- gets (fun s => s) ;;
  vkDestroy KImageView (depthImageView s) ;;
  vkDestroy KImage (depthImage s) ;;
  vkDestroy KDeviceMemory (depthMemory s) ;;
  rebuild.

(** One pass of [while (!done) { ... }] after the event poll, in the
    order of the source, cut into its phases. *)
Definition acquire_phase : M nat :=
  r <- api CallResetFences ;; emit (EvResetFences (fence env) r) ;;
  s <- gets (fun s => s) ;;
  let idx := acquired_index env (nacquires s) (chain_id s) in
  modify (set_nacquires (S (nacquires s))) ;;
  nextImageResult <- api CallAcquireNextImage ;;
  emit (EvAcquireNextImage (swapchain s) (imageAvailableSemaphore env) (fence env)
          nextImageResult idx) ;;
  if negb (is_success nextImageResult) then throw "vkAcquireNextImageKHR failed" else
  modify (set_nextImage idx) ;;
  ret idx.

Definition render_phase (idx : nat) : M unit :=
  fbs <- gets frameBuffers ;; fb <- at_ fbs idx ;;
  cbs <- gets commandBuffers ;; cb <- at_ cbs idx ;;
  recordRenderPass (pipeline env) (renderPass env) fb cb (vertexBuffer env)
    (pipelineLayout env) (descriptorSet env) ;;
  cbs <- gets commandBuffers ;; cb <- at_ cbs idx ;;
  submitCommandBuffer (graphicsQueue env) cb (imageAvailableSemaphore env)
    (renderFinishedSemaphore env).

Definition present_phase (idx : nat) : M bool :=
  sc <- gets swapchain ;;
  presentQueue (presentationQueue env) sc (renderFinishedSemaphore env) idx.

Definition handle_present (ok : bool) : M unit :=
  if negb ok then recreate else ret tt.

Definition frame_end : M unit :=
  r <- api CallWaitForFences ;; emit (EvWaitForFences (fence env) r) ;;
  ni <- gets nextImage ;; cbs <- gets commandBuffers ;; cb <- at_ cbs ni ;;
  r <- api CallResetCommandBuffer ;; emit (EvResetCommandBuffer cb r).

Definition iteration : M unit :=
  idx <- acquire_phase ;;
  render_phase idx ;;
  ok <- present_phase idx ;;
  handle_present ok ;;
  frame_end.

(** [n] passes of the frame loop (the number of passes is decided by the
    platform's quit event, an input of the run). *)
Fixpoint run (n : nat) : M unit :=
  match n with
  | O => ret tt
  | S n' => iteration ;; run n'
  end.

Fixpoint createCommandBuffers (n : nat) : M (list nat) :=
  match n with
  | O => ret []
  | S n' =>
      p <- vkCreate KCommandBuffer CallAllocateCommandBuffers ;;
      if negb (is_success (fst p)) then throw "failed to allocate command buffer!" else
      t <- createCommandBuffers n' ;; ret (snd p :: t)
  end.

(** The swapchain-dependent part of [main]'s setup; the other objects the
    loop uses are the constant handles of [env]. *)
Definition setup : M unit :=
  ok <- createSwapChain ;;
  if negb ok then exit (-1) else
  ok <- getSwapChainImageHandles ;;
  if negb ok then exit (-1) else
  images <- gets chainImages ;;
  modify (set_chainImageViews (repeat VK_NULL_HANDLE (length images))) ;;
  makeChainImageViews ;;
  createDepthBuffer ;;
  images <- gets chainImages ;;
  modify (set_frameBuffers (repeat VK_NULL_HANDLE (length images))) ;;
  makeFramebuffers ;;
  images <- gets chainImages ;;
  cbs <- createCommandBuffers (length images) ;;
  modify (set_commandBuffers cbs).

Definition main_prog (n : nat) : M unit := setup ;; run n.

(** [createDescriptorSet(device, descriptorSetLayout)]: neither
    [vkCreateDescriptorPool] nor [vkAllocateDescriptorSets] is checked. *)
Definition createDescriptorSet : M (nat * nat) :=
  pp <- vkCreate KDescriptorPool CallCreateDescriptorPool ;;
  ps <- vkCreate KDescriptorSet CallAllocateDescriptorSets ;;
  ret (snd pp, snd ps).

(** [createBuffer(gpu, device, usageFlags, byteCount)]: the result of
    [vkBindBufferMemory] is not checked. *)
Definition createBuffer : M (nat * nat) :=
  pb <- vkCreate KBuffer CallCreateBuffer ;;
  if negb (is_success (fst pb)) then throw "failed to create vertex buffer!" else
  findMemoryType ;;
  pm <- vkCreate KDeviceMemory CallAllocateMemory ;;
  if negb (is_success (fst pm)) then throw "failed to allocate vertex buffer memory!" else
  r <- api CallBindBufferMemory ;; emit (EvBindMemory KBuffer (snd pb) (snd pm) r) ;;
  ret (snd pb, snd pm).

End Program.

(** ** Concrete environments *)

(** A driver that answers every call with [res], gives swapchain [c] the
    image count [counts c] and returns acquire index [idx k c]. *)
Definition env_with (res : Call -> nat -> VkResult) (counts : nat -> nat)
    (idx : nat -> nat -> nat) : Env :=
  mkEnv 101 102 103 104 105 106 107 108 109 110 res idx counts true true.

Definition all_success : Call -> nat -> VkResult := fun _ _ => VK_SUCCESS.

(** Every call succeeds except [c0], which always returns [r]. *)
Definition failing_call (c0 : Call) (r : VkResult) : Call -> nat -> VkResult :=
  fun c _ => if Call_beq c c0 then r else VK_SUCCESS.

(** ** Trace properties used in the statements *)

(** The draw commands of a trace. *)
Definition draw_cmds (tr : list Event) : list Cmd :=
  flat_map (fun e => match e with
                     | EvCmd _ (CmdDraw a b c d) => [CmdDraw a b c d]
                     | _ => []
                     end) tr.

(** The calls a frame for image [i] makes between acquisition and the
    recreation decision: recording into [cb] with framebuffer [fb],
    submitting [cb], presenting image [i] of swapchain [sc]. *)
Definition frame_event (env : Env) (i fb cb sc : nat) (e : Event) : Prop :=
  match e with
  | EvBeginCommandBuffer c _ | EvEndCommandBuffer c _ => c = cb
  | EvCmd c (CmdBeginRenderPass rp f) => c = cb /\ rp = renderPass env /\ f = fb
  | EvCmd c _ => c = cb
  | EvQueueSubmit q info _ =>
      q = graphicsQueue env /\
      info = mkSubmitInfo [cb] [imageAvailableSemaphore env]
               [VK_PIPELINE_STAGE_COLOR_ATTACHMENT_OUTPUT_BIT]
               [renderFinishedSemaphore env]
  | EvQueueWaitIdle q _ => q = graphicsQueue env
  | EvQueuePresent q info _ =>
      q = presentationQueue env /\
      info = mkPresentInfo [renderFinishedSemaphore env] [sc] [i]
  | _ => False
  end.

(** Every successful [vkQueueSubmit] is immediately followed by a
    [vkQueueWaitIdle] on the same queue. *)
Fixpoint submits_waited (tr : list Event) : Prop :=
  match tr with
  | [] => True
  | EvQueueSubmit q _ VK_SUCCESS :: t =>
      match t with
      | EvQueueWaitIdle q' _ :: _ => q' = q
      | _ => False
      end /\ submits_waited t
  | _ :: t => submits_waited t
  end.

(** The framebuffer a trace event begins a render pass on, if any. *)
Definition render_target (e : Event) : option nat :=
  match e with
  | EvCmd _ (CmdBeginRenderPass _ fb) => Some fb
  | _ => None
  end.

(** Every render pass begins on a framebuffer no earlier event destroyed. *)
Definition records_on_live (tr : list Event) : Prop :=
  forall pre e post fb, tr = pre ++ e :: post -> render_target e = Some fb ->
    ~ In (EvDestroy KFramebuffer fb) pre.

(** Events that neither submit work, wait on a queue, begin a render pass
    nor destroy a framebuffer. *)
Definition plain (e : Event) : bool :=
  match e with
  | EvQueueSubmit _ _ _ | EvQueueWaitIdle _ _ => false
  | EvCmd _ (CmdBeginRenderPass _ _) => false
  | EvDestroy KFramebuffer _ => false
  | _ => true
  end.

(** [ext T Rel m]: from every state, [m] extends the trace by events
    satisfying [T], and its final state is related to the initial one by
    [Rel]. *)
Definition ext (T : list Event -> Prop) (Rel : Loop -> Loop -> Prop) {A} (m : M A) : Prop :=
  forall s, exists new,
    trace (final_state (m s)) = trace s ++ new /\ T new /\ Rel s (final_state (m s)).

(** Events that destroy no framebuffer and begin render passes only on
    framebuffers satisfying [ok]. *)
Definition quiet (ok : nat -> Prop) (e : Event) : Prop :=
  match e with
  | EvDestroy KFramebuffer _ => False
  | EvCmd _ (CmdBeginRenderPass _ fb) => ok fb
  | _ => True
  end.

(** Trace extensions with no framebuffer destruction and no render pass. *)
Definition quiet_trace : list Event -> Prop := Forall (quiet (fun _ => False)).

(** The framebuffer list and the swapchain are kept, no handle is reused. *)
Definition same_chain_fbs (s s' : Loop) : Prop :=
  (fresh s <= fresh s')%nat /\ frameBuffers s' = frameBuffers s /\ chain_id s' = chain_id s.

Definition same_fbs (s s' : Loop) : Prop :=
  (fresh s <= fresh s')%nat /\ frameBuffers s' = frameBuffers s.

(** The invariant of the loop's states: no render pass so far used a
    destroyed framebuffer, destroyed framebuffers and the handles in
    [frameBuffers] were all handed out before [fresh]. *)
Definition good (s : Loop) : Prop :=
  records_on_live (trace s) /\
  (forall h, In (EvDestroy KFramebuffer h) (trace s) -> h < fresh s)%nat /\
  Forall (fun h => h < fresh s)%nat (frameBuffers s) /\ (0 < fresh s)%nat.

(** [frameBuffers[i]] exists and has not been destroyed. *)
Definition live_at (s : Loop) (i : nat) : Prop :=
  exists fb, nth_error (frameBuffers s) i = Some fb /\
             ~ In (EvDestroy KFramebuffer fb) (trace s).

(** Every image of the current swapchain has a live framebuffer. *)
Definition live (env : Env) (s : Loop) : Prop :=
  forall i, (i < swap_image_count env (chain_id s))%nat -> live_at s i.

(** The invariant of the frame loop: [good], and a live framebuffer for
    every image of the current swapchain. *)
Definition Inv (env : Env) (s : Loop) : Prop := good s /\ live env s.

(** Partial correctness with respect to [records_on_live]: from a state
    satisfying [P], a normal return satisfies [Q], and every other
    outcome ends with a trace satisfying [records_on_live]. *)
Definition hoare {A} (P : Loop -> Prop) (m : M A) (Q : A -> Loop -> Prop) : Prop :=
  forall s, P s ->
    match m s with
    | Done a s' => Q a s'
    | r => records_on_live (trace (final_state r))
    end.

(** ** Pure helpers of the setup code

    The functions below take the driver's answers as arguments: the
    [VkResult] of each query and the arrays the second call of each
    two-call query fills in. *)

(** [uint32_t findMemoryType(physicalDevice, memoryTypeBits, properties)]:
    [memoryTypes] lists [memProperties.memoryTypes[i].propertyFlags] for
    [i < memoryTypeCount] (at most 32). [1 << i] is taken as [2^i], also for
    [i = 31]. [inl msg] is the [std::runtime_error] thrown. *)
Module Memory.

Definition VK_MEMORY_PROPERTY_DEVICE_LOCAL_BIT : Z := 1.
Definition VK_MEMORY_PROPERTY_HOST_VISIBLE_BIT : Z := 2.
Definition VK_MEMORY_PROPERTY_HOST_COHERENT_BIT : Z := 4.

Fixpoint findMemoryType_loop (memoryTypeBits properties : Z) (memoryTypes : list Z)
    (i : nat) : string + nat :=
  match memoryTypes with
  | [] => inl "failed to find suitable memory type!"%string
  | propertyFlags :: rest =>
      if negb (Z.land memoryTypeBits (Z.shiftl 1 (Z.of_nat i)) =? 0)
         && (Z.land propertyFlags properties =? properties)
      then inr i
      else findMemoryType_loop memoryTypeBits properties rest (S i)
  end.

Definition findMemoryType (memoryTypeBits properties : Z) (memoryTypes : list Z) : string + nat :=
  findMemoryType_loop memoryTypeBits properties memoryTypes 0.

(** Memory type [i] is one [findMemoryType] accepts. *)
Definition suitable (memoryTypeBits properties : Z) (memoryTypes : list Z) (i : nat) : Prop :=
  Z.testbit memoryTypeBits (Z.of_nat i) = true /\
  Z.land (nth i memoryTypes 0) properties = properties.

End Memory.

(** The surface queries of [createSwapChain]. *)
Module Surface.

Definition VK_FORMAT_UNDEFINED : Z := 0.
Definition VK_FORMAT_B8G8R8A8_UNORM : Z := 44.
Definition VK_FORMAT_B8G8R8A8_SRGB : Z := 50.
Definition VK_COLOR_SPACE_SRGB_NONLINEAR_KHR : Z := 0.
Definition VK_COLOR_SPACE_DISPLAY_P3_NONLINEAR_EXT : Z := 1000104001.
Definition VK_PRESENT_MODE_IMMEDIATE_KHR : Z := 0.
Definition VK_PRESENT_MODE_MAILBOX_KHR : Z := 1.
Definition VK_PRESENT_MODE_FIFO_KHR : Z := 2.
Definition VK_PRESENT_MODE_FIFO_RELAXED_KHR : Z := 3.
Definition VK_IMAGE_USAGE_TRANSFER_DST_BIT : Z := 2.
Definition VK_IMAGE_USAGE_COLOR_ATTACHMENT_BIT : Z := 16.

(** The global settings [preferredPresentationMode], [surfaceFormat],
    [colorSpace] and [desiredImageUsage]. *)
Definition preferredPresentationMode : Z := VK_PRESENT_MODE_FIFO_RELAXED_KHR.
Definition surfaceFormat : Z := VK_FORMAT_B8G8R8A8_SRGB.
Definition colorSpace : Z := VK_COLOR_SPACE_SRGB_NONLINEAR_KHR.
Definition desiredImageUsage : Z := VK_IMAGE_USAGE_COLOR_ATTACHMENT_BIT.

Record VkSurfaceFormatKHR := mkSurfaceFormat { sf_format : Z; sf_colorSpace : Z }.

(** The inner loop of [getSurfaceFormat]: the first entry whose colour
    space is [colorSpace]. *)
Fixpoint getSurfaceFormat_inner (found_formats : list VkSurfaceFormatKHR) : option Z :=
  match found_formats with
  | [] => None
  | f :: rest =>
      if sf_colorSpace f =? colorSpace then Some (sf_colorSpace f)
      else getSurfaceFormat_inner rest
  end.

(** The outer loop of [getSurfaceFormat] over [rest], a suffix of
    [found_formats], and what follows it. [None] is the read of
    [found_formats[0]] on an empty vector. *)
Fixpoint getSurfaceFormat_outer (found_formats rest : list VkSurfaceFormatKHR)
    (outFormat : VkSurfaceFormatKHR) : option (bool * VkSurfaceFormatKHR) :=
  match rest with
  | [] =>
      match found_formats with
      | [] => None
      | f0 :: _ => Some (true, f0)
      end
  | f :: rest' =>
      if sf_format f =? surfaceFormat then
        let outFormat := mkSurfaceFormat (sf_format f) (sf_colorSpace outFormat) in
        match getSurfaceFormat_inner found_formats with
        | Some cs => Some (true, mkSurfaceFormat (sf_format outFormat) cs)
        | None =>
            match found_formats with
            | [] => None
            | f0 :: _ => Some (true, mkSurfaceFormat (sf_format outFormat) (sf_colorSpace f0))
            end
        end
      else getSurfaceFormat_outer found_formats rest' outFormat
  end.

(** [bool getSurfaceFormat(device, surface, outFormat)]: [r1], [r2] are
    the results of the two [vkGetPhysicalDeviceSurfaceFormatsKHR] calls,
    [found_formats] what the second one wrote. Returns the result and the
    final [outFormat]; [None] is undefined behaviour. *)
Definition getSurfaceFormat (r1 r2 : VkResult) (found_formats : list VkSurfaceFormatKHR)
    (outFormat : VkSurfaceFormatKHR) : option (bool * VkSurfaceFormatKHR) :=
  if negb (is_success r1) then Some (false, outFormat) else
  if negb (is_success r2) then Some (false, outFormat) else
  let single_undefined :=
    match found_formats with
    | [f] => sf_format f =? VK_FORMAT_UNDEFINED
    | _ => false
    end in
  if single_undefined then Some (true, mkSurfaceFormat surfaceFormat colorSpace)
  else getSurfaceFormat_outer found_formats found_formats outFormat.

(** The loop of [getPresentationMode]: is [ioMode] among [availableModes]? *)
Fixpoint getPresentationMode_loop (availableModes : list Z) (ioMode : Z) : bool :=
  match availableModes with
  | [] => false
  | mode :: rest => if mode =? ioMode then true else getPresentationMode_loop rest ioMode
  end.

(** [bool getPresentationMode(surface, device, ioMode)]: the result and
    the final [ioMode]. *)
Definition getPresentationMode (r1 r2 : VkResult) (availableModes : list Z) (ioMode : Z) : bool * Z :=
  if negb (is_success r1) then (false, ioMode) else
  if negb (is_success r2) then (false, ioMode) else
  if getPresentationMode_loop availableModes ioMode then (true, ioMode)
  else (true, VK_PRESENT_MODE_FIFO_KHR).

(** The loop of [getImageUsage] over [desiredUsages]. *)
Fixpoint getImageUsage_loop (supportedUsageFlags : Z) (desiredUsages : list Z)
    (foundUsages : Z) : bool * Z :=
  match desiredUsages with
  | [] => (true, foundUsages)
  | usage :: rest =>
      let image_usage := Z.land usage supportedUsageFlags in
      if negb (image_usage =? usage) then (false, foundUsages)
      else getImageUsage_loop supportedUsageFlags rest (Z.lor foundUsages usage)
  end.

(** [bool getImageUsage(capabilities, foundUsages)]: the result and the
    final [foundUsages]. *)
Definition getImageUsage (supportedUsageFlags : Z) : bool * Z :=
  let desiredUsages := [desiredImageUsage] in
  let foundUsages := nth 0 desiredUsages 0 in
  getImageUsage_loop supportedUsageFlags desiredUsages foundUsages.

End Surface.

(** Instance and device selection in [main]. *)
Module Devices.

(** [getRequestedLayerNames()]: a [std::set], so in sorted order. *)
Definition getRequestedLayerNames : list string :=
  ["VK_LAYER_KHRONOS_validation"%string; "VK_LAYER_NV_optimus"%string].

(** [requestedLayers] of [getAvailableVulkanLayers]. *)
Definition requestedLayers : list string := ["VK_LAYER_KHRONOS_validation"%string].

Definition set_find (set : list string) (name : string) : bool :=
  existsb (String.eqb name) set.

Fixpoint getAvailableVulkanLayers_loop (instance_layer_names outLayers : list string) : list string :=
  match instance_layer_names with
  | [] => outLayers
  | name :: rest =>
      getAvailableVulkanLayers_loop rest
        (if set_find requestedLayers name then outLayers ++ [name] else outLayers)
  end.

(** [bool getAvailableVulkanLayers(outLayers)]: the result and the final
    [outLayers]. *)
Definition getAvailableVulkanLayers (r1 r2 : VkResult) (instance_layer_names outLayers : list string)
    : bool * list string :=
  if negb (is_success r1) then (false, outLayers) else
  if negb (is_success r2) then (false, outLayers) else
  let outLayers := [] in
  (true, getAvailableVulkanLayers_loop instance_layer_names outLayers).

(** [main]: [found_layers.size() != getRequestedLayerNames().size()]
    prints the warning. *)
Definition layers_warning (found_layers : list string) : bool :=
  negb (Nat.eqb (length found_layers) (length getRequestedLayerNames)).

Definition VK_EXT_DEBUG_REPORT_EXTENSION_NAME : string := "VK_EXT_debug_report"%string.

Fixpoint emplace_back_all (ext_names outExtensions : list string) : list string :=
  match ext_names with
  | [] => outExtensions
  | name :: rest => emplace_back_all rest (outExtensions ++ [name])
  end.

(** [bool getAvailableVulkanExtensions(window, outExtensions)]: [ok1],
    [ok2] are the results of the two [SDL_Vulkan_GetInstanceExtensions]
    calls, [ext_names] what the second one wrote. *)
Definition getAvailableVulkanExtensions (ok1 ok2 : bool) (ext_names outExtensions : list string)
    : bool * list string :=
  if negb ok1 then (false, outExtensions) else
  if negb ok2 then (false, outExtensions) else
  let outExtensions := emplace_back_all ext_names outExtensions in
  (true, outExtensions ++ [VK_EXT_DEBUG_REPORT_EXTENSION_NAME]).

Definition VK_KHR_SWAPCHAIN_EXTENSION_NAME : string := "VK_KHR_swapchain"%string.

Definition required_extension_names : list string := [VK_KHR_SWAPCHAIN_EXTENSION_NAME].

Fixpoint device_property_names_loop (device_properties names : list string) : list string :=
  match device_properties with
  | [] => names
  | ext :: rest =>
      device_property_names_loop rest
        (if set_find required_extension_names ext then names ++ [ext] else names)
  end.

(** [bool createLogicalDevice(physicalDevice, queueFamilyIndex, layerNames,
    outDevice)]: the result, and the extension names passed to
    [vkCreateDevice] when it is called. [r1], [r2] answer the two
    [vkEnumerateDeviceExtensionProperties] calls, [rc] [vkCreateDevice]. *)
Definition createLogicalDevice (r1 r2 : VkResult) (device_properties : list string) (rc : VkResult)
    : bool * option (list string) :=
  if negb (is_success r1) then (false, None) else
  if negb (is_success r2) then (false, None) else
  let device_property_names := device_property_names_loop device_properties [] in
  if negb (Nat.eqb (length required_extension_names) (length device_property_names))
  then (false, None)
  else (is_success rc, Some device_property_names).

Definition VK_QUEUE_GRAPHICS_BIT : Z := 1.

Record VkQueueFamilyProperties := mkQueueFamily { queueFlags : Z; queueCount : Z }.

(** One [std::cin >> selection_id] into the [unsigned int]: either the
    extraction succeeds and stores [v], or it fails (non-numeric input, a
    value out of range, end of input) and [selection_id] holds [v]
    afterwards (0 or [UINT_MAX] as stored by the failed read, or its
    previous value). A failed stream stays failed: every later [>>] fails
    at once and leaves [selection_id] unchanged. *)
Inductive cin_extraction :=
| Extracted (v : Z)
| ExtractionFailed (v : Z).

(** The device-selection loop [while (true) { std::cin >> selection_id;
    if (selection_id >= physical_device_count) continue; break; }]: the
    [selection_id] it breaks with; [None] while it keeps reading, which
    after a failed extraction holding an out-of-range value is forever. *)
Fixpoint read_selection (physical_device_count : Z) (input : list cin_extraction) : option Z :=
  match input with
  | [] => None
  | Extracted selection_id :: rest =>
      if physical_device_count <=? selection_id then read_selection physical_device_count rest
      else Some selection_id
  | ExtractionFailed selection_id :: _ =>
      if physical_device_count <=? selection_id then None
      else Some selection_id
  end.

(** The queue-family loop of [selectGPU]. *)
Fixpoint queue_node_loop (queue_properties : list VkQueueFamilyProperties) (i : Z) : Z :=
  match queue_properties with
  | [] => -1
  | q :: rest =>
      if (0 <? queueCount q) && negb (Z.land (queueFlags q) VK_QUEUE_GRAPHICS_BIT =? 0)
      then i
      else queue_node_loop rest (i + 1)
  end.

(** [bool selectGPU(instance, outDevice, outQueueFamilyIndex)]: each
    physical device is given by its queue families, [input] is the
    outcome of each [std::cin >> selection_id]. The result, [outDevice] (an index into
    [physical_devices]) and [outQueueFamilyIndex]; [None] while the
    selection loop is still waiting for a valid index. *)
Definition selectGPU (physical_devices : list (list VkQueueFamilyProperties)) (input : list cin_extraction)
    (outDevice : nat) (outQueueFamilyIndex : Z) : option (bool * nat * Z) :=
  let physical_device_count := Z.of_nat (length physical_devices) in
  if physical_device_count =? 0 then Some (false, outDevice, outQueueFamilyIndex) else
  let selection :=
    if 1 <? physical_device_count then read_selection physical_device_count input
    else Some 0 in
  match selection with
  | None => None
  | Some selection_id =>
      let queue_properties := nth (Z.to_nat selection_id) physical_devices [] in
      if Z.of_nat (length queue_properties) =? 0 then Some (false, outDevice, outQueueFamilyIndex) else
      let queue_node_index := queue_node_loop queue_properties 0 in
      if queue_node_index =? -1 then Some (false, outDevice, outQueueFamilyIndex)
      else Some (true, Z.to_nat selection_id, queue_node_index)
  end.

(** Queue family [i] is one [selectGPU] accepts. *)
Definition graphics_family (queue_properties : list VkQueueFamilyProperties) (i : nat) : Prop :=
  exists q, nth_error queue_properties i = Some q /\
    0 < queueCount q /\ Z.land (queueFlags q) VK_QUEUE_GRAPHICS_BIT <> 0.

End Devices.

(** The texture and depth images: the commands recorded on an image by
    [transitionImageLayout], [copyBufferToImage] and [generateMipmaps], in
    the order [createImageFromTGAFile] submits them. Each helper records
    into its own [ScopedCommandBuffer] and waits for the queue, so the
    commands execute in this order. *)
Module Texture.

Definition VK_IMAGE_LAYOUT_UNDEFINED : Z := 0.
Definition VK_IMAGE_LAYOUT_DEPTH_STENCIL_ATTACHMENT_OPTIMAL : Z := 3.
Definition VK_IMAGE_LAYOUT_SHADER_READ_ONLY_OPTIMAL : Z := 5.
Definition VK_IMAGE_LAYOUT_TRANSFER_SRC_OPTIMAL : Z := 6.
Definition VK_IMAGE_LAYOUT_TRANSFER_DST_OPTIMAL : Z := 7.

Definition VK_IMAGE_ASPECT_COLOR_BIT : Z := 1.
Definition VK_IMAGE_ASPECT_DEPTH_BIT : Z := 2.
Definition VK_IMAGE_ASPECT_STENCIL_BIT : Z := 4.

Definition VK_ACCESS_SHADER_READ_BIT : Z := 32.
Definition VK_ACCESS_DEPTH_STENCIL_ATTACHMENT_READ_BIT : Z := 512.
Definition VK_ACCESS_DEPTH_STENCIL_ATTACHMENT_WRITE_BIT : Z := 1024.
Definition VK_ACCESS_TRANSFER_READ_BIT : Z := 2048.
Definition VK_ACCESS_TRANSFER_WRITE_BIT : Z := 4096.

Definition VK_PIPELINE_STAGE_TOP_OF_PIPE_BIT : Z := 1.
Definition VK_PIPELINE_STAGE_FRAGMENT_SHADER_BIT : Z := 128.
Definition VK_PIPELINE_STAGE_EARLY_FRAGMENT_TESTS_BIT : Z := 256.
Definition VK_PIPELINE_STAGE_LATE_FRAGMENT_TESTS_BIT : Z := 512.
Definition VK_PIPELINE_STAGE_TRANSFER_BIT : Z := 4096.

Definition VK_FORMAT_B8G8R8_SRGB : Z := 36.
Definition VK_FORMAT_B8G8R8A8_SRGB : Z := 50.
Definition VK_FORMAT_D16_UNORM : Z := 124.
Definition VK_FORMAT_D32_SFLOAT : Z := 126.
Definition VK_FORMAT_D16_UNORM_S8_UINT : Z := 128.
Definition VK_FORMAT_D24_UNORM_S8_UINT : Z := 129.
Definition VK_FORMAT_D32_SFLOAT_S8_UINT : Z := 130.

(** [VkImageMemoryBarrier], the fields the code sets. *)
Record VkImageMemoryBarrier := mkBarrier {
  oldLayout : Z;
  newLayout : Z;
  srcAccessMask : Z;
  dstAccessMask : Z;
  aspectMask : Z;
  baseMipLevel : Z;
  levelCount : Z
}.

Inductive ImageCmd :=
| CmdImageBarrier (sourceStage destinationStage : Z) (barrier : VkImageMemoryBarrier)
| CmdBlitImage (srcLayout srcMipLevel : Z) (srcExtent : Z * Z)
               (dstLayout dstMipLevel : Z) (dstExtent : Z * Z)
| CmdCopyBufferToImage (dstLayout mipLevel : Z) (extent : Z * Z).

(** The layout checks of [void transitionImageLayout(device, commandPool,
    graphicsQueue, image, format, mipLevels, oldLayout, newLayout)]: the
    barrier it records, or the [std::invalid_argument] it throws. This is
    the whole function when the command-buffer calls of its
    [ScopedCommandBuffer] succeed; [transitionImageLayout_run] adds them. *)
Definition transitionImageLayout (format mipLevels oldLayout newLayout : Z) : string + ImageCmd :=
  let aspectMask :=
    if (oldLayout =? VK_IMAGE_LAYOUT_UNDEFINED)
       && (newLayout =? VK_IMAGE_LAYOUT_DEPTH_STENCIL_ATTACHMENT_OPTIMAL)
    then Z.lor VK_IMAGE_ASPECT_DEPTH_BIT VK_IMAGE_ASPECT_STENCIL_BIT
    else VK_IMAGE_ASPECT_COLOR_BIT in
  let barrier src dst := mkBarrier oldLayout newLayout src dst aspectMask 0 mipLevels in
  if (oldLayout =? VK_IMAGE_LAYOUT_UNDEFINED)
     && (newLayout =? VK_IMAGE_LAYOUT_TRANSFER_DST_OPTIMAL) then
    inr (CmdImageBarrier VK_PIPELINE_STAGE_TOP_OF_PIPE_BIT VK_PIPELINE_STAGE_TRANSFER_BIT
           (barrier 0 VK_ACCESS_TRANSFER_WRITE_BIT))
  else if (oldLayout =? VK_IMAGE_LAYOUT_TRANSFER_DST_OPTIMAL)
          && (newLayout =? VK_IMAGE_LAYOUT_SHADER_READ_ONLY_OPTIMAL) then
    inr (CmdImageBarrier VK_PIPELINE_STAGE_TRANSFER_BIT VK_PIPELINE_STAGE_FRAGMENT_SHADER_BIT
           (barrier VK_ACCESS_TRANSFER_WRITE_BIT VK_ACCESS_SHADER_READ_BIT))
  else if (oldLayout =? VK_IMAGE_LAYOUT_UNDEFINED)
          && (newLayout =? VK_IMAGE_LAYOUT_DEPTH_STENCIL_ATTACHMENT_OPTIMAL) then
    inr (CmdImageBarrier VK_PIPELINE_STAGE_TOP_OF_PIPE_BIT
           (Z.lor VK_PIPELINE_STAGE_EARLY_FRAGMENT_TESTS_BIT VK_PIPELINE_STAGE_LATE_FRAGMENT_TESTS_BIT)
           (barrier 0 (Z.lor VK_ACCESS_DEPTH_STENCIL_ATTACHMENT_READ_BIT
                             VK_ACCESS_DEPTH_STENCIL_ATTACHMENT_WRITE_BIT)))
  else inl "unsupported layout transition!"%string.


(** [void copyBufferToImage(device, commandPool, graphicsQueue, buffer,
    image, width, height)] *)
Definition copyBufferToImage (width height : Z) : ImageCmd :=
  CmdCopyBufferToImage VK_IMAGE_LAYOUT_TRANSFER_DST_OPTIMAL 0 (width, height).

Definition writeToReadBarrier (level : Z) : VkImageMemoryBarrier :=
  mkBarrier VK_IMAGE_LAYOUT_TRANSFER_DST_OPTIMAL VK_IMAGE_LAYOUT_TRANSFER_SRC_OPTIMAL
    VK_ACCESS_TRANSFER_WRITE_BIT VK_ACCESS_TRANSFER_READ_BIT VK_IMAGE_ASPECT_COLOR_BIT level 1.

Definition readToSampleBarrier (level : Z) : VkImageMemoryBarrier :=
  mkBarrier VK_IMAGE_LAYOUT_TRANSFER_SRC_OPTIMAL VK_IMAGE_LAYOUT_SHADER_READ_ONLY_OPTIMAL
    VK_ACCESS_TRANSFER_READ_BIT VK_ACCESS_SHADER_READ_BIT VK_IMAGE_ASPECT_COLOR_BIT level 1.

(** The [for (size_t i=1; i<mipLevelCount; i++)] loop of
    [generateMipmaps], from [i] with [k] iterations left; [mipWidth] and
    [mipHeight] are [int]s and [/] truncates. *)
Fixpoint generateMipmaps_loop (i : Z) (k : nat) (mipWidth mipHeight : Z) : list ImageCmd :=
  match k with
  | O => []
  | S k' =>
      let dstWidth := if 1 <? mipWidth then Z.quot mipWidth 2 else 1 in
      let dstHeight := if 1 <? mipHeight then Z.quot mipHeight 2 else 1 in
      CmdImageBarrier VK_PIPELINE_STAGE_TRANSFER_BIT VK_PIPELINE_STAGE_TRANSFER_BIT
        (writeToReadBarrier (i - 1)) ::
      CmdBlitImage VK_IMAGE_LAYOUT_TRANSFER_SRC_OPTIMAL (i - 1) (mipWidth, mipHeight)
                   VK_IMAGE_LAYOUT_TRANSFER_DST_OPTIMAL i (dstWidth, dstHeight) ::
      CmdImageBarrier VK_PIPELINE_STAGE_TRANSFER_BIT VK_PIPELINE_STAGE_FRAGMENT_SHADER_BIT
        (readToSampleBarrier (i - 1)) ::
      generateMipmaps_loop (i + 1) k'
        (if 1 <? mipWidth then Z.quot mipWidth 2 else mipWidth)
        (if 1 <? mipHeight then Z.quot mipHeight 2 else mipHeight)
  end.

(** [void generateMipmaps(device, image, commandPool, graphicsQueue, width,
    height, mipLevelCount)]: the loop, then the barrier of the last level,
    whose [baseMipLevel] is the [size_t] [mipLevelCount - 1] stored in a
    [uint32_t]. *)
Definition generateMipmaps (width height mipLevelCount : Z) : list ImageCmd :=
  generateMipmaps_loop 1 (Z.to_nat (mipLevelCount - 1)) width height ++
  [CmdImageBarrier VK_PIPELINE_STAGE_TRANSFER_BIT VK_PIPELINE_STAGE_FRAGMENT_SHADER_BIT
     (mkBarrier VK_IMAGE_LAYOUT_TRANSFER_DST_OPTIMAL VK_IMAGE_LAYOUT_SHADER_READ_ONLY_OPTIMAL
        VK_ACCESS_TRANSFER_WRITE_BIT VK_ACCESS_SHADER_READ_BIT VK_IMAGE_ASPECT_COLOR_BIT
        (u32 (mipLevelCount - 1)) 1)].

(** The commands [createImageFromTGAFile] records on the texture image,
    for a [width] x [height] image with [mipLevels] levels; [mipLevels] is
    computed in floating point ([floor(log2(max(width, height))) + 1]) and
    is taken as an argument. *)
Definition createImageFromTGAFile_cmds (format width height mipLevels : Z) : string + list ImageCmd :=
  match transitionImageLayout format 1 VK_IMAGE_LAYOUT_UNDEFINED VK_IMAGE_LAYOUT_TRANSFER_DST_OPTIMAL with
  | inl msg => inl msg
  | inr toDst =>
      match transitionImageLayout format 1 VK_IMAGE_LAYOUT_TRANSFER_DST_OPTIMAL
              VK_IMAGE_LAYOUT_SHADER_READ_ONLY_OPTIMAL with
      | inl msg => inl msg
      | inr toRead =>
          inr (toDst :: copyBufferToImage width height ::
               generateMipmaps width height mipLevels ++ [toRead])
      end
  end.

(** [imageAspects] of [createDepthBuffer]. *)
Definition createDepthBuffer_imageAspects (depthFormat : Z) : Z :=
  if (depthFormat =? VK_FORMAT_D32_SFLOAT_S8_UINT) || (depthFormat =? VK_FORMAT_D24_UNORM_S8_UINT)
  then Z.lor VK_IMAGE_ASPECT_DEPTH_BIT VK_IMAGE_ASPECT_STENCIL_BIT
  else VK_IMAGE_ASPECT_DEPTH_BIT.

(** *** Image layouts

    The layout of each mip level as the device tracks it, and whether a
    command names the layout the level is in: a barrier's [oldLayout] must
    be that layout or [VK_IMAGE_LAYOUT_UNDEFINED], a blit or copy names the
    layouts of the levels it reads and writes. *)

Fixpoint replace_nth (l : list Z) (n : nat) (v : Z) : list Z :=
  match l, n with
  | [], _ => []
  | _ :: t, O => v :: t
  | x :: t, S n' => x :: replace_nth t n' v
  end.

Definition layout_of (layouts : list Z) (level : Z) : option Z :=
  if level <? 0 then None else nth_error layouts (Z.to_nat level).

Definition set_layout (layouts : list Z) (level v : Z) : list Z :=
  if level <? 0 then layouts else replace_nth layouts (Z.to_nat level) v.

Fixpoint levels_from (base : Z) (n : nat) : list Z :=
  match n with
  | O => []
  | S n' => base :: levels_from (base + 1) n'
  end.

Definition barrier_levels (b : VkImageMemoryBarrier) : list Z :=
  levels_from (baseMipLevel b) (Z.to_nat (levelCount b)).

Definition layout_is (layouts : list Z) (layout level : Z) : bool :=
  match layout_of layouts level with
  | Some l => l =? layout
  | None => false
  end.

Definition level_exists (layouts : list Z) (level : Z) : bool :=
  match layout_of layouts level with Some _ => true | None => false end.

Definition cmd_ok (layouts : list Z) (c : ImageCmd) : bool :=
  match c with
  | CmdImageBarrier _ _ b =>
      forallb (fun level =>
        if oldLayout b =? VK_IMAGE_LAYOUT_UNDEFINED then level_exists layouts level
        else layout_is layouts (oldLayout b) level) (barrier_levels b)
  | CmdBlitImage sl slevel _ dl dlevel _ => layout_is layouts sl slevel && layout_is layouts dl dlevel
  | CmdCopyBufferToImage l level _ => layout_is layouts l level
  end.

Definition apply_cmd (layouts : list Z) (c : ImageCmd) : list Z :=
  match c with
  | CmdImageBarrier _ _ b =>
      fold_left (fun ls level => set_layout ls level (newLayout b)) (barrier_levels b) layouts
  | _ => layouts
  end.

(** The commands of [cmds] that name a layout their levels are not in,
    starting from [layouts]. *)
Fixpoint layout_mismatches (layouts : list Z) (cmds : list ImageCmd) : list ImageCmd :=
  match cmds with
  | [] => []
  | c :: rest =>
      (if cmd_ok layouts c then [] else [c]) ++ layout_mismatches (apply_cmd layouts c) rest
  end.

Definition final_layouts (layouts : list Z) (cmds : list ImageCmd) : list Z :=
  fold_left apply_cmd cmds layouts.

(** The blits of a command list: source level and extent, destination
    level and extent. *)
Fixpoint blits (cmds : list ImageCmd) : list (Z * (Z * Z) * Z * (Z * Z)) :=
  match cmds with
  | [] => []
  | CmdBlitImage _ sl se _ dl de :: rest => (sl, se, dl, de) :: blits rest
  | _ :: rest => blits rest
  end.

(** For each blit of [cmds], the layout its destination level is in when
    the blit executes, starting from [layouts]. *)
Fixpoint blit_dst_layouts (layouts : list Z) (cmds : list ImageCmd) : list (option Z) :=
  match cmds with
  | [] => []
  | c :: rest =>
      match c with
      | CmdBlitImage _ _ _ _ dl _ => [layout_of layouts dl]
      | _ => []
      end ++ blit_dst_layouts (apply_cmd layouts c) rest
  end.


End Texture.

(** The extents that [pipelineInfo] carries from [createSwapChain] to the
    images, framebuffers, pipeline and render passes created after it. *)
Module Extent.

(** A nonnegative integer rounded to the nearest [float] (24-bit
    significand, ties to even). *)
Definition to_float (z : Z) : Z :=
  if z <? 2 ^ 24 then z else
  let sh := Z.log2 z - 23 in
  let q := Z.shiftr z sh in
  let r := z - Z.shiftl q sh in
  let half := Z.shiftl 1 (sh - 1) in
  let q' := if (half <? r) || ((r =? half) && Z.odd q) then q + 1 else q in
  Z.shiftl q' sh.

(** A [float] holding an integer, converted to [uint32_t]; [None] is the
    undefined out-of-range conversion. *)
Definition float_to_u32 (f : Z) : option Z :=
  if (0 <=? f) && (f <? 2 ^ 32) then Some f else None.

(** The state the extents flow through: [pipelineInfo.extent], the extent
    of the depth image, of the framebuffers, and the pipeline's scissor. *)
Record Sizes := mkSizes {
  pipelineExtent : VkExtent2D;
  depthExtent : VkExtent2D;
  framebufferExtent : VkExtent2D;
  scissorExtent : VkExtent2D
}.

(** [pipelineInfo] is a zero-initialised global. *)
Definition init_sizes : Sizes :=
  mkSizes (mkExtent2D 0 0) (mkExtent2D 0 0) (mkExtent2D 0 0) (mkExtent2D 0 0).

(** [createSwapChain] on a surface with capabilities [caps], when it gets
    past the capability and present-mode queries:
    [pipelineInfo.w = (float)swap_image_extent.width; ...
     pipelineInfo.extent.width = pipelineInfo.w;]. *)
Definition createSwapChain (caps : VkSurfaceCapabilitiesKHR) (s : Sizes) : option Sizes :=
  let swap_image_extent := getSwapImageSize caps in
  let w := to_float (width swap_image_extent) in
  let h := to_float (height swap_image_extent) in
  match float_to_u32 h, float_to_u32 w with
  | Some eh, Some ew =>
      Some (mkSizes (mkExtent2D ew eh) (depthExtent s) (framebufferExtent s) (scissorExtent s))
  | _, _ => None
  end.

(** [createDepthBuffer]: [imageInfo.extent] is [pipelineInfo.extent]. *)
Definition createDepthBuffer (s : Sizes) : Sizes :=
  mkSizes (pipelineExtent s) (pipelineExtent s) (framebufferExtent s) (scissorExtent s).

(** [makeFramebuffers]: every framebuffer is [pipelineInfo.extent]. *)
Definition makeFramebuffers (s : Sizes) : Sizes :=
  mkSizes (pipelineExtent s) (depthExtent s) (pipelineExtent s) (scissorExtent s).

(** [createGraphicsPipeline]: [scissor.extent = pipelineInfo.extent]. *)
Definition createGraphicsPipeline (s : Sizes) : Sizes :=
  mkSizes (pipelineExtent s) (depthExtent s) (framebufferExtent s) (pipelineExtent s).

(** [recordRenderPass]: [renderArea.extent = pipelineInfo.extent]. *)
Definition renderArea (s : Sizes) : VkExtent2D := pipelineExtent s.

(** [main] up to the frame loop, in its order: [createSwapChain],
    [createDepthBuffer], [makeFramebuffers], [createGraphicsPipeline]. *)
Definition setup (caps : VkSurfaceCapabilitiesKHR) : option Sizes :=
  match createSwapChain caps init_sizes with
  | None => None
  | Some s => Some (createGraphicsPipeline (makeFramebuffers (createDepthBuffer s)))
  end.

(** The swap-chain rebuild of the frame loop, in its order:
    [createDepthBuffer], [createSwapChain], [makeFramebuffers]. *)
Definition recreate (caps : VkSurfaceCapabilitiesKHR) (s : Sizes) : option Sizes :=
  match createSwapChain caps (createDepthBuffer s) with
  | None => None
  | Some s' => Some (makeFramebuffers s')
  end.

Fixpoint recreate_all (capss : list VkSurfaceCapabilitiesKHR) (s : Sizes) : option Sizes :=
  match capss with
  | [] => Some s
  | caps :: rest =>
      match recreate caps s with
      | None => None
      | Some s' => recreate_all rest s'
      end
  end.

(** The setup on [caps0], then one rebuild per element of [capss]. *)
Definition run (caps0 : VkSurfaceCapabilitiesKHR) (capss : list VkSurfaceCapabilitiesKHR) : option Sizes :=
  match setup caps0 with
  | None => None
  | Some s => recreate_all capss s
  end.

(** Both sides below [2^24], so exactly representable as [float]. *)
Definition float_exact (e : VkExtent2D) : Prop :=
  0 <= width e < 2 ^ 24 /\ 0 <= height e < 2 ^ 24.

End Extent.

(** * Theorems *)

(** ** Swapchain sizing *)

Example getNumberOfSwapImages_ex1 :
  getNumberOfSwapImages (mkCaps 2 8 (mkExtent2D 1 1) (mkExtent2D 1 1) (mkExtent2D 1 1)) = 3.
Proof. reflexivity. Qed.

(** With [maxImageCount = 0] and [minImageCount = 0xFFFFFFFF], the
    32-bit increment wraps to 0 and [getNumberOfSwapImages] returns 0,
    below [minImageCount]. *)
Lemma getNumberOfSwapImages_no_limit_wraps :
  let c := mkCaps 0xFFFFFFFF 0 (mkExtent2D 1 1) (mkExtent2D 1 1) (mkExtent2D 1 1) in
  caps_u32 c /\ maxImageCount c = 0 /\
  getNumberOfSwapImages c = 0 /\ getNumberOfSwapImages c <> minImageCount c.
Proof.
  cbn. unfold is_u32, u32_modulus. repeat split; try lia; vm_compute; congruence.
Qed.

(** C9 (code bug): for 32-bit capabilities with
    [minImageCount < 0xFFFFFFFF], [getNumberOfSwapImages] returns
    [minImageCount + 1] when that is at most [maxImageCount] and
    [minImageCount] otherwise (so with [maxImageCount = 0] it returns
    [minImageCount]), as claimed; but for [minImageCount = 0xFFFFFFFF] the
    unsigned increment wraps and it returns 0, below [minImageCount]. *)
Theorem getNumberOfSwapImages_spec (c : VkSurfaceCapabilitiesKHR) :
  caps_u32 c ->
  (minImageCount c < 0xFFFFFFFF ->
   getNumberOfSwapImages c =
     if minImageCount c + 1 <=? maxImageCount c then minImageCount c + 1
     else minImageCount c) /\
  (minImageCount c < 0xFFFFFFFF -> maxImageCount c = 0 ->
   getNumberOfSwapImages c = minImageCount c) /\
  (minImageCount c = 0xFFFFFFFF -> getNumberOfSwapImages c = 0).
Proof.
  unfold caps_u32, is_u32, u32_modulus, getNumberOfSwapImages, u32, u32_modulus.
  intros [Hmin Hmax].
  split; [|split].
  - intros Hlt. rewrite Z.mod_small by lia.
    destruct (maxImageCount c <? minImageCount c + 1) eqn:E1;
    destruct (minImageCount c + 1 <=? maxImageCount c) eqn:E2;
    rewrite ?Z.ltb_lt, ?Z.ltb_ge, ?Z.leb_le, ?Z.leb_gt in *; lia.
  - intros Hlt H0. rewrite Z.mod_small by lia. rewrite H0.
    destruct (0 <? minImageCount c + 1) eqn:E; rewrite ?Z.ltb_lt, ?Z.ltb_ge in *; lia.
  - intros Heq. rewrite Heq. change ((0xFFFFFFFF + 1) mod 2 ^ 32) with 0.
    destruct (maxImageCount c <? 0) eqn:E; rewrite ?Z.ltb_lt, ?Z.ltb_ge in *; lia.
Qed.

Lemma getNumberOfSwapImages_spec_witness :
  caps_u32 (mkCaps 2 0 (mkExtent2D 1 1) (mkExtent2D 1 1) (mkExtent2D 1 1)) /\
  getNumberOfSwapImages (mkCaps 2 0 (mkExtent2D 1 1) (mkExtent2D 1 1) (mkExtent2D 1 1)) = 2.
Proof.
  assert (H : caps_u32 (mkCaps 2 0 (mkExtent2D 1 1) (mkExtent2D 1 1) (mkExtent2D 1 1))).
  { unfold caps_u32, is_u32, u32_modulus; cbn; lia. }
  split; [exact H|].
  apply (proj1 (proj2 (getNumberOfSwapImages_spec _ H))); cbn; lia.
Defined.

(** C10: [getSwapImageSize] returns [currentExtent] unless
    [currentExtent.width] is exactly [0xFFFFFFF] (seven F's); in that case
    it returns the window size 1280x720 clamped to the image extents.  In
    particular a width of [0xFFFFFFFF] is returned unchanged. *)
Theorem getSwapImageSize_spec (c : VkSurfaceCapabilitiesKHR) :
  getSwapImageSize c =
    (if width (currentExtent c) =? 0xFFFFFFF then
       mkExtent2D
         (clamp 1280 (width (minImageExtent c)) (width (maxImageExtent c)))
         (clamp 720 (height (minImageExtent c)) (height (maxImageExtent c)))
     else currentExtent c) /\
  (width (currentExtent c) = 0xFFFFFFFF -> getSwapImageSize c = currentExtent c).
Proof.
  unfold getSwapImageSize. split; [reflexivity|].
  intros H. rewrite H. reflexivity.
Qed.

Lemma getSwapImageSize_spec_witness :
  getSwapImageSize (mkCaps 2 3 (mkExtent2D 0xFFFFFFFF 5) (mkExtent2D 1 1) (mkExtent2D 9 9))
  = mkExtent2D 0xFFFFFFFF 5.
Proof.
  apply (proj2 (getSwapImageSize_spec
    (mkCaps 2 3 (mkExtent2D 0xFFFFFFFF 5) (mkExtent2D 1 1) (mkExtent2D 9 9)))).
  reflexivity.
Defined.

(** ** Recording *)

Lemma app_assoc_r {X} (l m n : list X) : (l ++ m) ++ n = l ++ m ++ n.
Proof. symmetry. apply app_assoc. Qed.

Lemma success_cases (r : VkResult) : r = VK_SUCCESS \/ is_success r = false.
Proof. destruct r; auto. Qed.

Ltac case_result :=
  match goal with
  | |- context [is_success (result_of ?e ?c ?n)] =>
      let H := fresh "Hr" in
      destruct (success_cases (result_of e c n)) as [H|H]; rewrite H
  end.

Ltac split_results := repeat (cbn; case_result); cbn.

(** C8: a command buffer recorded by [recordRenderPass] receives exactly
    one draw command, [vkCmdDraw(cb, 12, 1, 0, 0)]; a recording that stops
    early (failed [vkBeginCommandBuffer] or [vkEndCommandBuffer]) issues
    at most that one draw. *)
Theorem recordRenderPass_one_draw (env : Env) (gp rp fb cb vb pl ds : nat) (s : Loop) :
  match recordRenderPass env gp rp fb cb vb pl ds s with
  | Done _ s' =>
      exists new, trace s' = trace s ++ new /\ draw_cmds new = [CmdDraw 12 1 0 0]
  | r =>
      exists new, trace (final_state r) = trace s ++ new /\
        (draw_cmds new = [] \/ draw_cmds new = [CmdDraw 12 1 0 0])
  end.
Proof.
  destruct s. unfold recordRenderPass. split_results;
  rewrite ?app_assoc_r; eexists; (split; [reflexivity | cbn; auto]).
Qed.

(** ** Acquisition and presentation *)

(** C2 (counterexample): an out-of-date result of [vkAcquireNextImageKHR]
    aborts the process on the first frame; it does not lead to recreation. *)
Lemma acquire_out_of_date_aborts :
  exists s,
    main_prog (env_with (failing_call CallAcquireNextImage VK_ERROR_OUT_OF_DATE_KHR)
                 (fun _ => 3%nat) (fun _ _ => 0%nat)) 1 init_state
    = Thrown "vkAcquireNextImageKHR failed"%string s.
Proof.
  exists (final_state (main_prog (env_with (failing_call CallAcquireNextImage
            VK_ERROR_OUT_OF_DATE_KHR) (fun _ => 3%nat) (fun _ _ => 0%nat)) 1 init_state)).
  vm_compute. reflexivity.
Qed.

(** C2 (amended): the acquisition step proceeds exactly when
    [vkAcquireNextImageKHR] returns [VK_SUCCESS], with the acquired index
    stored in [nextImage]; every other result, the out-of-date signal
    included, throws "vkAcquireNextImageKHR failed". *)
Theorem acquire_phase_outcomes (env : Env) (s : Loop) :
  let r := result_of env CallAcquireNextImage (S (ncalls s)) in
  match acquire_phase env s with
  | Done i s' =>
      r = VK_SUCCESS /\ i = acquired_index env (nacquires s) (chain_id s) /\
      nextImage s' = i
  | Thrown msg _ => r <> VK_SUCCESS /\ msg = "vkAcquireNextImageKHR failed"%string
  | _ => False
  end.
Proof.
  destruct s. unfold acquire_phase. cbn.
  destruct (result_of env CallAcquireNextImage (S ncalls0)); cbn;
  repeat split; congruence.
Qed.

(** C4: [presentQueue] returns [true] exactly on [VK_SUCCESS], [false]
    exactly on [VK_ERROR_OUT_OF_DATE_KHR], and throws on every other
    result; the loop recreates the swapchain only on [false], and on
    [true] continues without any recreation step. *)
Theorem presentQueue_outcomes (env : Env) (q sc rf i : nat) (s : Loop) :
  (let r := result_of env CallQueuePresent (ncalls s) in
   match presentQueue env q sc rf i s with
   | Done true _ => r = VK_SUCCESS
   | Done false _ => r = VK_ERROR_OUT_OF_DATE_KHR
   | Thrown msg _ =>
       r <> VK_SUCCESS /\ r <> VK_ERROR_OUT_OF_DATE_KHR /\
       msg = "failed to present swap chain image!"%string
   | _ => False
   end) /\
  handle_present env true s = Done tt s /\
  handle_present env false = recreate env.
Proof.
  split; [|split; reflexivity].
  destruct s. unfold presentQueue. cbn.
  destruct (result_of env CallQueuePresent ncalls0); cbn;
  repeat split; congruence.
Qed.

(** ** Error handling of the setup helpers *)

(** C3 (code bug): [createDescriptorSet] returns normally when
    [vkCreateDescriptorPool] fails, and [createBuffer] returns normally
    when [vkBindBufferMemory] fails. *)
Theorem unchecked_calls_return_normally :
  (exists p s,
     createDescriptorSet
       (env_with (failing_call CallCreateDescriptorPool VK_ERROR_OUT_OF_HOST_MEMORY)
          (fun _ => 3%nat) (fun _ _ => 0%nat)) init_state = Done p s /\
     In (EvCreate KDescriptorPool VK_NULL_HANDLE VK_ERROR_OUT_OF_HOST_MEMORY) (trace s)) /\
  (exists p s,
     createBuffer
       (env_with (failing_call CallBindBufferMemory VK_ERROR_OUT_OF_DEVICE_MEMORY)
          (fun _ => 3%nat) (fun _ _ => 0%nat)) init_state = Done p s /\
     In (EvBindMemory KBuffer 1 2 VK_ERROR_OUT_OF_DEVICE_MEMORY) (trace s)).
Proof.
  split; do 2 eexists; split; [vm_compute; reflexivity | cbn; auto 10
                              | vm_compute; reflexivity | cbn; auto 10].
Qed.

(** ** Swapchain recreation *)

(** C1 (code bug): the first present is out of date and the swapchain
    shrinks from 3 to 2 images.  After the recreation [chainImages] and
    [chainImageViews] have 2 entries but [frameBuffers] keeps 3, the last
    one destroyed; when the swapchain grows from 2 to 3 images,
    [makeFramebuffers] writes past the end of [frameBuffers]. *)
Theorem recreate_keeps_framebuffer_count :
  match main_prog (env_with (failing_call CallQueuePresent VK_ERROR_OUT_OF_DATE_KHR)
                     (fun c => if Nat.eqb c 0 then 3%nat else 2%nat)
                     (fun _ _ => 2%nat)) 1 init_state with
  | Done _ s =>
      length (chainImages s) = 2%nat /\ length (chainImageViews s) = 2%nat /\
      length (frameBuffers s) = 3%nat /\
      (exists fb, nth_error (frameBuffers s) 2 = Some fb /\
                  In (EvDestroy KFramebuffer fb) (trace s))
  | _ => False
  end /\
  exists s,
    main_prog (env_with (failing_call CallQueuePresent VK_ERROR_OUT_OF_DATE_KHR)
                 (fun c => if Nat.eqb c 0 then 2%nat else 3%nat)
                 (fun _ _ => 1%nat)) 1 init_state = Undefined s.
Proof.
  split.
  - vm_compute. repeat split; try reflexivity.
    eexists; split; [reflexivity|]. cbn. tauto.
  - eexists. vm_compute. reflexivity.
Qed.

(** ** Trace extension *)
Section Ext.

Variable env : Env.
Variable T : list Event -> Prop.
Variable Rel : Loop -> Loop -> Prop.

Hypothesis T_nil : T [].
Hypothesis T_app : forall a b, T a -> T b -> T (a ++ b).
Hypothesis T_plain : forall e, plain e = true -> T [e].
Hypothesis T_submit_fail :
  forall q i r, is_success r = false -> T [EvQueueSubmit q i r].
Hypothesis T_submit_wait :
  forall q i r, T [EvQueueSubmit q i VK_SUCCESS; EvQueueWaitIdle q r].
Hypothesis Rel_trans : forall a b c, Rel a b -> Rel b c -> Rel a c.
Hypothesis Rel_step : forall s s',
  frameBuffers s' = frameBuffers s -> chain_id s' = chain_id s ->
  (fresh s <= fresh s')%nat -> Rel s s'.

Lemma Rel_refl s : Rel s s.
Proof. apply Rel_step; auto. Qed.

Lemma ext_same {A} (m : M A) :
  (forall s, trace (final_state (m s)) = trace s /\ Rel s (final_state (m s))) -> ext T Rel m.
Proof.
  intros H s. destruct (H s) as [E R]. exists []. rewrite app_nil_r. auto.
Qed.

Lemma ext_ret {A} (a : A) : ext T Rel (ret a).
Proof. apply ext_same. intros s. split; [reflexivity | apply Rel_refl]. Qed.

Lemma ext_throw {A} msg : ext T Rel (A := A) (throw msg).
Proof. apply ext_same. intros s. split; [reflexivity | apply Rel_refl]. Qed.

Lemma ext_exit {A} c : ext T Rel (A := A) (exit c).
Proof. apply ext_same. intros s. split; [reflexivity | apply Rel_refl]. Qed.

Lemma ext_undefined {A} : ext T Rel (A := A) undefined.
Proof. apply ext_same. intros s. split; [reflexivity | apply Rel_refl]. Qed.

Lemma ext_gets {A} (f : Loop -> A) : ext T Rel (gets f).
Proof. apply ext_same. intros s. split; [reflexivity | apply Rel_refl]. Qed.

Lemma ext_at l i : ext T Rel (at_ l i).
Proof. unfold at_. destruct (nth_error l i); [apply ext_ret | apply ext_undefined]. Qed.

Lemma ext_modify f : (forall s, trace (f s) = trace s /\ Rel s (f s)) -> ext T Rel (modify f).
Proof. intros H. apply ext_same. exact H. Qed.

Lemma ext_api c : ext T Rel (api env c).
Proof. apply ext_same. intros s. split; [reflexivity | apply Rel_step; cbn; auto]. Qed.

Lemma ext_new_handle : ext T Rel new_handle.
Proof. apply ext_same. intros s. split; [reflexivity | apply Rel_step; cbn; auto]. Qed.

Lemma ext_emit e : T [e] -> ext T Rel (emit e).
Proof.
  intros He s. exists [e]. split; [reflexivity | split; [exact He|]].
  apply Rel_step; cbn; auto.
Qed.

Lemma ext_bind {A B} (m : M A) (k : A -> M B) :
  ext T Rel m -> (forall a, ext T Rel (k a)) -> ext T Rel (bind m k).
Proof.
  intros Hm Hk s. destruct (Hm s) as [n1 [E1 [T1 R1]]]. unfold bind.
  destruct (m s) as [a s1|msg s1|c s1|s1]; cbn in *;
    try (exists n1; auto; fail).
  destruct (Hk a s1) as [n2 [E2 [T2 R2]]].
  exists (n1 ++ n2). rewrite E2, E1, app_assoc_r. split; [reflexivity|]. eauto.
Qed.

Lemma ext_new_handles n : ext T Rel (new_handles n).
Proof. apply ext_same. intros s. split; [reflexivity | apply Rel_step; cbn; (reflexivity || lia)]. Qed.

Ltac T_tac :=
  repeat first
    [ apply T_nil
    | apply T_submit_wait
    | (apply T_submit_fail; assumption)
    | (apply T_plain; reflexivity)
    | match goal with |- T (_ ++ _) => apply T_app end ].

Create HintDb ext_db.
Ltac ext_known := solve [auto 1 with ext_db nocore].
Ltac T_extra := fail.
Ltac Rel_extra := fail.

Ltac ext_step :=
  match goal with
  | |- ext _ _ (bind _ _) => apply ext_bind; [ | intro ]
  | |- ext _ _ (ret _) => apply ext_ret
  | |- ext _ _ (throw _) => apply ext_throw
  | |- ext _ _ (exit _) => apply ext_exit
  | |- ext _ _ undefined => apply ext_undefined
  | |- ext _ _ (gets _) => apply ext_gets
  | |- ext _ _ (at_ _ _) => apply ext_at
  | |- ext _ _ (api _ _) => apply ext_api
  | |- ext _ _ new_handle => apply ext_new_handle
  | |- ext _ _ (new_handles _) => apply ext_new_handles
  | |- ext _ _ (emit _) => apply ext_emit; solve [T_tac | T_extra]
  | |- ext _ _ (modify _) =>
      apply ext_modify; intro; split;
      [reflexivity | solve [apply Rel_step; cbn; solve [auto | lia] | Rel_extra]]
  | |- ext _ _ (if ?b then _ else _) => destruct b
  | |- ext _ _ (let _ := _ in _) => cbv zeta
  | |- ext _ _ _ =>
      first [ext_known | progress unfold vkDestroy, vkDeviceWaitIdle, findMemoryType]
  end.

Ltac ext_tac := repeat ext_step.

(** Straight-line blocks checked by running them. *)
Ltac ext_run :=
  intros s; destruct s; split_results;
  rewrite ?app_assoc_r; eexists;
  (split; [reflexivity | split; [T_tac | apply Rel_step; cbn; auto]]).

Lemma ext_submitAndWait cb : ext T Rel (submitAndWait env cb).
Proof. unfold submitAndWait. ext_run. Qed.
#[local] Hint Resolve ext_submitAndWait : ext_db.

Lemma ext_submitCommandBuffer q cb ia rf : ext T Rel (submitCommandBuffer env q cb ia rf).
Proof. unfold submitCommandBuffer. ext_run. Qed.
#[local] Hint Resolve ext_submitCommandBuffer : ext_db.

Lemma ext_vkCreate k c : ext T Rel (vkCreate env k c).
Proof. unfold vkCreate. ext_tac. Qed.
#[local] Hint Resolve ext_vkCreate : ext_db.


Lemma ext_surface_query c : ext T Rel (surface_query env c).
Proof. unfold surface_query. ext_tac. Qed.
#[local] Hint Resolve ext_surface_query : ext_db.

Lemma ext_getSwapChainImageHandles : ext T Rel (getSwapChainImageHandles env).
Proof. unfold getSwapChainImageHandles. ext_tac. Qed.
#[local] Hint Resolve ext_getSwapChainImageHandles : ext_db.

Lemma ext_makeChainImageViews_loop n : forall i, ext T Rel (makeChainImageViews_loop env i n).
Proof. induction n as [|n IH]; intros i; cbn; ext_tac. Qed.
#[local] Hint Resolve ext_makeChainImageViews_loop : ext_db.


Lemma ext_makeChainImageViews : ext T Rel (makeChainImageViews env).
Proof. unfold makeChainImageViews. ext_tac. Qed.
#[local] Hint Resolve ext_makeChainImageViews : ext_db.

Lemma ext_transitionImageLayout img : ext T Rel (transitionImageLayout env img).
Proof. unfold transitionImageLayout. ext_tac. Qed.
#[local] Hint Resolve ext_transitionImageLayout : ext_db.

Lemma ext_createDepthBuffer : ext T Rel (createDepthBuffer env).
Proof. unfold createDepthBuffer, findMemoryType. ext_tac. Qed.
#[local] Hint Resolve ext_createDepthBuffer : ext_db.

Lemma ext_presentQueue q sc rf i : ext T Rel (presentQueue env q sc rf i).
Proof. unfold presentQueue. ext_tac. Qed.
#[local] Hint Resolve ext_presentQueue : ext_db.

Lemma ext_acquire_phase : ext T Rel (acquire_phase env).
Proof. unfold acquire_phase. ext_tac. Qed.
#[local] Hint Resolve ext_acquire_phase : ext_db.

Lemma ext_present_phase i : ext T Rel (present_phase env i).
Proof. unfold present_phase. ext_tac. Qed.
#[local] Hint Resolve ext_present_phase : ext_db.

Lemma ext_frame_end : ext T Rel (frame_end env).
Proof. unfold frame_end. ext_tac. Qed.
#[local] Hint Resolve ext_frame_end : ext_db.

Lemma ext_createCommandBuffers n : ext T Rel (createCommandBuffers env n).
Proof. induction n as [|n IH]; cbn; ext_tac. Qed.
#[local] Hint Resolve ext_createCommandBuffers : ext_db.

Section ExtChain.

(** [createSwapChain] moves to a new swapchain. *)
Hypothesis Rel_chain : forall s s',
  frameBuffers s' = frameBuffers s -> (fresh s <= fresh s')%nat -> Rel s s'.

Ltac Rel_extra ::= apply Rel_chain; cbn; auto.

Lemma ext_createSwapChain : ext T Rel (createSwapChain env).
Proof. unfold createSwapChain. ext_tac. Qed.

End ExtChain.

Section ExtAll.

(** Properties of traces that also allow render passes and framebuffer
    destruction, and relations that hold between any two states. *)
Hypothesis T_brp : forall cb rp fb, T [EvCmd cb (CmdBeginRenderPass rp fb)].
Hypothesis T_fbd : forall h, T [EvDestroy KFramebuffer h].
Hypothesis Rel_all : forall s s', Rel s s'.

Ltac T_extra ::= first [apply T_brp | apply T_fbd].
Ltac Rel_extra ::= apply Rel_all.
Ltac ext_all := ext_tac.

#[local] Hint Extern 1 (ext _ _ (createSwapChain _)) =>
  apply ext_createSwapChain; intros; apply Rel_all : ext_db.

Lemma ext_recordRenderPass gp rp fb cb vb pl ds :
  ext T Rel (recordRenderPass env gp rp fb cb vb pl ds).
Proof. unfold recordRenderPass. ext_all. Qed.
#[local] Hint Resolve ext_recordRenderPass : ext_db.

Lemma ext_render_phase i : ext T Rel (render_phase env i).
Proof. unfold render_phase. ext_all. Qed.
#[local] Hint Resolve ext_render_phase : ext_db.

Lemma ext_destroy_all k l : ext T Rel (destroy_all k l).
Proof.
  induction l as [|h l IH]; cbn; [apply ext_ret|].
  apply ext_bind; [unfold vkDestroy; destruct k; ext_all | intros; apply IH].
Qed.
#[local] Hint Resolve ext_destroy_all : ext_db.

Lemma ext_makeFramebuffers_loop n : forall i, ext T Rel (makeFramebuffers_loop env i n).
Proof. induction n as [|n IH]; intros i; cbn; ext_all. Qed.
#[local] Hint Resolve ext_makeFramebuffers_loop : ext_db.

Lemma ext_makeFramebuffers : ext T Rel (makeFramebuffers env).
Proof. unfold makeFramebuffers. ext_all. Qed.
#[local] Hint Resolve ext_makeFramebuffers : ext_db.

Lemma ext_rebuild : ext T Rel (rebuild env).
Proof. unfold rebuild. ext_all. Qed.
#[local] Hint Resolve ext_rebuild : ext_db.

Lemma ext_recreate : ext T Rel (recreate env).
Proof.
  unfold recreate. ext_all.
Qed.
#[local] Hint Resolve ext_recreate : ext_db.

Lemma ext_iteration : ext T Rel (iteration env).
Proof.
  unfold iteration, handle_present. ext_all.
Qed.
#[local] Hint Resolve ext_iteration : ext_db.

Lemma ext_run n : ext T Rel (run env n).
Proof. induction n as [|n IH]; cbn; ext_all. Qed.
#[local] Hint Resolve ext_run : ext_db.

Lemma ext_setup : ext T Rel (setup env).
Proof.
  unfold setup. ext_all.
Qed.
#[local] Hint Resolve ext_setup : ext_db.

Lemma ext_main_prog n : ext T Rel (main_prog env n).
Proof. unfold main_prog. ext_all. Qed.
#[local] Hint Resolve ext_main_prog : ext_db.

End ExtAll.

End Ext.

(** ** One frame in flight *)

Lemma submits_waited_app a b :
  submits_waited a -> submits_waited b -> submits_waited (a ++ b).
Proof.
  induction a as [|e a IH]; cbn; auto.
  destruct e; try (intros; apply IH; auto; fail).
  destruct r; try (intros; apply IH; auto; fail).
  intros [Hn Ha] Hb. split; [|auto].
  destruct a as [|e' a]; [contradiction|]. exact Hn.
Qed.

Lemma submits_waited_ext (env : Env) {A} (m : M A) :
  (forall (T : list Event -> Prop) (Rel : Loop -> Loop -> Prop),
     T [] -> (forall a b, T a -> T b -> T (a ++ b)) ->
     (forall e, plain e = true -> T [e]) ->
     (forall q i r, is_success r = false -> T [EvQueueSubmit q i r]) ->
     (forall q i r, T [EvQueueSubmit q i VK_SUCCESS; EvQueueWaitIdle q r]) ->
     (forall a b c, Rel a b -> Rel b c -> Rel a c) ->
     (forall s s', frameBuffers s' = frameBuffers s -> chain_id s' = chain_id s ->
        (fresh s <= fresh s')%nat -> Rel s s') ->
     (forall cb rp fb, T [EvCmd cb (CmdBeginRenderPass rp fb)]) ->
     (forall h, T [EvDestroy KFramebuffer h]) ->
     (forall s s', Rel s s') ->
     ext T Rel m) ->
  forall s, exists new, trace (final_state (m s)) = trace s ++ new /\ submits_waited new.
Proof.
  intros H s.
  destruct (H submits_waited (fun _ _ => True)) with (s := s) as [new [E [W _]]];
    eauto using submits_waited_app.
  - cbn; auto.
  - intros []; cbn; auto; discriminate.
  - intros q i []; cbn; auto; discriminate.
  - cbn; auto.
  - cbn; auto.
  - cbn; auto.
Qed.

(** C7: in every run of the program (setup followed by [n] passes of the
    frame loop, whatever the driver answers), each successful
    [vkQueueSubmit] is immediately followed by a [vkQueueWaitIdle] on the
    same queue, before any other call; and [submitCommandBuffer] returns
    normally only after its submission and a successful wait for the
    graphics queue to be idle, so no two frames' command buffers are ever
    in flight together. *)
Theorem frame_loop_one_in_flight (env : Env) (n : nat) :
  submits_waited (trace (final_state (main_prog env n init_state))) /\
  (forall q cb ia rf s u s',
     submitCommandBuffer env q cb ia rf s = Done u s' ->
     trace s' = trace s ++
       [EvQueueSubmit q (mkSubmitInfo [cb] [ia]
                          [VK_PIPELINE_STAGE_COLOR_ATTACHMENT_OUTPUT_BIT] [rf]) VK_SUCCESS;
        EvQueueWaitIdle q VK_SUCCESS]).
Proof.
  split.
  - destruct (submits_waited_ext env (main_prog env n)) with (s := init_state)
      as [new [E W]].
    + intros; apply ext_main_prog; auto.
    + rewrite E. exact W.
  - intros q cb ia rf s u s' H. destruct s. revert H. unfold submitCommandBuffer.
    split_results; intros H; unfold ret, throw in H; inversion H; subst; cbn;
    rewrite ?app_assoc_r; reflexivity.
Qed.

(** ** The frame for an acquired image *)

(** C6: when the acquisition step returns image index [i] (the index the
    driver chose for this acquisition) and [frameBuffers[i]] and
    [commandBuffers[i]] exist, every call the frame then makes up to the
    recreation decision belongs to image [i]: recording begins on
    [commandBuffers[i]] and only into it, the render pass begins on
    [frameBuffers[i]], the submission of [commandBuffers[i]] waits on the
    image-available semaphore at the colour-attachment-output stage and
    signals the render-finished semaphore, and the present waits on the
    render-finished semaphore and requests image [i]. *)
Theorem frame_uses_acquired_image (env : Env) (s s1 : Loop) (i fb cb : nat) :
  acquire_phase env s = Done i s1 ->
  nth_error (frameBuffers s1) i = Some fb ->
  nth_error (commandBuffers s1) i = Some cb ->
  i = acquired_index env (nacquires s) (chain_id s) /\
  exists new r,
    trace (final_state ((render_phase env i ;; present_phase env i) s1)) = trace s1 ++ new /\
    hd_error new = Some (EvBeginCommandBuffer cb r) /\
    Forall (frame_event env i fb cb (swapchain s1)) new.
Proof.
  destruct s. unfold acquire_phase. split_results; intros H; unfold ret, throw in H;
    inversion H; subst; clear H.
  intros Hfb Hcb. split; [reflexivity|].
  cbn in Hfb, Hcb. unfold render_phase, present_phase. cbn.
  cbv beta iota delta [bind gets at_ ret frameBuffers commandBuffers swapchain].
  rewrite Hfb, Hcb.
  unfold recordRenderPass, submitCommandBuffer, presentQueue.
  repeat (cbn; first [ case_result | rewrite Hcb
                     | match goal with |- context [is_out_of_date ?r] =>
                         destruct (is_out_of_date r) end ]).
  all: cbn; do 2 eexists;
    (split; [rewrite ?app_assoc_r; reflexivity | split; [reflexivity | repeat constructor]]).
Qed.

(** C6 at the scenario of the claim: three swapchain images, the driver
    returns index 2. *)
Lemma frame_uses_acquired_image_witness :
  let env3 := env_with all_success (fun _ => 3%nat) (fun _ _ => 2%nat) in
  let s := final_state (setup env3 init_state) in
  let s1 := final_state (acquire_phase env3 s) in
  (2 = acquired_index env3 (nacquires s) (chain_id s) /\
   exists new r,
     trace (final_state ((render_phase env3 2 ;; present_phase env3 2) s1)) =
       trace s1 ++ new /\
     hd_error new = Some (EvBeginCommandBuffer 17 r) /\
     Forall (frame_event env3 2 14 17 (swapchain s1)) new)%nat.
Proof.
  intros env3 s s1.
  apply (frame_uses_acquired_image env3 s s1 2%nat 14%nat 17%nat).
  - vm_compute. reflexivity.
  - vm_compute. reflexivity.
  - vm_compute. reflexivity.
Defined.

(** ** Recreation and live framebuffers *)

Lemma quiet_no_destroy ok new h :
  Forall (quiet ok) new -> ~ In (EvDestroy KFramebuffer h) new.
Proof.
  intros Hn Hin. rewrite Forall_forall in Hn. apply (Hn _ Hin).
Qed.

Lemma records_on_live_app ok tr new :
  records_on_live tr -> Forall (quiet ok) new ->
  (forall fb, ok fb -> ~ In (EvDestroy KFramebuffer fb) tr) ->
  records_on_live (tr ++ new).
Proof.
  intros H Hn Hok pre e post fb E Rt.
  assert (He : forall l, new = l ++ e :: post -> pre = tr ++ l ->
                 ~ In (EvDestroy KFramebuffer fb) pre).
  { intros l En Ep. subst pre new.
    apply Forall_app in Hn as [Hl He]. inversion He as [|? ? Qe]; subst.
    assert (Ok : ok fb).
    { destruct e as [| | | | |? c| | | | | | | | |]; try discriminate.
      destruct c; try discriminate. cbn in Rt. injection Rt as <-. exact Qe. }
    rewrite in_app_iff. intros [I|I]; [exact (Hok _ Ok I) | exact (quiet_no_destroy _ _ _ Hl I)]. }
  apply app_eq_app in E as [l [[E1 E2]|[E1 E2]]].
  - destruct l as [|x l].
    + cbn in E2. rewrite app_nil_r in E1. subst tr.
      eapply He with (l := []); [exact (eq_sym E2) | rewrite app_nil_r; reflexivity].
    + cbn in E2. injection E2 as Ex Ep. subst. eapply H; eauto.
  - (* [e] lies in [new] *)
    eapply He; eauto.
Qed.

Lemma good_ext ok s s' new :
  good s -> trace s' = trace s ++ new -> Forall (quiet ok) new ->
  (forall fb, ok fb -> ~ In (EvDestroy KFramebuffer fb) (trace s)) ->
  (fresh s <= fresh s')%nat -> Forall (fun h => h < fresh s')%nat (frameBuffers s') ->
  good s'.
Proof.
  intros [R [D [F P]]] Et Hn Hok Hf F'. unfold good. rewrite Et. repeat split.
  - eapply records_on_live_app; eauto.
  - intros h I. apply in_app_iff in I as [I|I].
    + specialize (D h I). lia.
    + exfalso. exact (quiet_no_destroy _ _ _ Hn I).
  - exact F'.
  - lia.
Qed.

Lemma Forall_lt_mono (l : list nat) a b :
  Forall (fun h => h < a)%nat l -> (a <= b)%nat -> Forall (fun h => h < b)%nat l.
Proof. intros H Hab. eapply Forall_impl; [|exact H]. cbn. intros; lia. Qed.

Lemma live_ext env ok s s' new :
  live env s -> trace s' = trace s ++ new -> Forall (quiet ok) new ->
  frameBuffers s' = frameBuffers s -> chain_id s' = chain_id s -> live env s'.
Proof.
  intros L Et Hn Hfb Hc i Hi. rewrite Hc in Hi. destruct (L i Hi) as [fb [N D]].
  exists fb. rewrite Hfb, Et. split; [exact N|].
  rewrite in_app_iff. intros [I|I]; [exact (D I) | exact (quiet_no_destroy _ _ _ Hn I)].
Qed.

Lemma hoare_bind {A B} P (m : M A) Q (k : A -> M B) R :
  hoare P m Q -> (forall a, hoare (Q a) (k a) R) -> hoare P (bind m k) R.
Proof.
  intros Hm Hk s Ps. unfold bind. specialize (Hm s Ps).
  destruct (m s) as [a s1|msg s1|c s1|s1]; auto. apply Hk; auto.
Qed.

Lemma hoare_conseq {A} P P' (m : M A) Q Q' :
  hoare P m Q -> (forall s, P' s -> P s) -> (forall a s, Q a s -> Q' a s) -> hoare P' m Q'.
Proof.
  intros H HP HQ s Ps. specialize (H s (HP s Ps)). destruct (m s); auto.
Qed.

Lemma hoare_ret {A} (a : A) (Q : A -> Loop -> Prop) : hoare (Q a) (ret a) Q.
Proof. intros s H. exact H. Qed.

Lemma hoare_throw {A} P msg (Q : A -> Loop -> Prop) :
  (forall s, P s -> good s) -> hoare P (throw msg) Q.
Proof. intros H s Ps. apply (H s Ps). Qed.

Lemma hoare_undefined {A} P (Q : A -> Loop -> Prop) :
  (forall s, P s -> good s) -> hoare P undefined Q.
Proof. intros H s Ps. apply (H s Ps). Qed.

Lemma hoare_gets {A} P (f : Loop -> A) : hoare P (gets f) (fun a s => P s /\ a = f s).
Proof. intros s Ps. cbn. auto. Qed.

Lemma hoare_ext {A} (R : Loop -> Loop -> Prop) (m : M A) (P : Loop -> Prop) Q :
  ext quiet_trace R m -> (forall s, P s -> good s) ->
  (forall s a s' new, P s -> m s = Done a s' -> trace s' = trace s ++ new ->
     quiet_trace new -> R s s' -> Q a s') ->
  hoare P m Q.
Proof.
  intros E HP HQ s Ps. destruct (E s) as [new [Et [Tn Rs]]].
  destruct (m s) as [a s1|msg s1|c s1|s1] eqn:Em; cbn in *;
    [ eapply HQ; eauto
    | rewrite Et; apply records_on_live_app with (ok := fun _ => False);
      [apply (HP s Ps) | exact Tn | intros _ []] .. ].
Qed.

Lemma quiet_plain e : plain e = true -> quiet (fun _ => False) e.
Proof.
  destruct e; cbn; try (intros; exact I);
  repeat match goal with |- context [match ?x with _ => _ end] => destruct x end;
  cbn; auto; discriminate.
Qed.

Lemma quiet_trace_nil : quiet_trace [].
Proof. constructor. Qed.

Lemma quiet_trace_app a b : quiet_trace a -> quiet_trace b -> quiet_trace (a ++ b).
Proof. intros Ha Hb. apply Forall_app. auto. Qed.

Lemma quiet_trace_plain e : plain e = true -> quiet_trace [e].
Proof. intros H. constructor; [apply quiet_plain, H | constructor]. Qed.

Lemma quiet_trace_submit_fail q i r :
  is_success r = false -> quiet_trace [EvQueueSubmit q i r].
Proof. intros _. repeat constructor. Qed.

Lemma quiet_trace_submit_wait q i r :
  quiet_trace [EvQueueSubmit q i VK_SUCCESS; EvQueueWaitIdle q r].
Proof. repeat constructor. Qed.

Lemma same_chain_fbs_trans a b c :
  same_chain_fbs a b -> same_chain_fbs b c -> same_chain_fbs a c.
Proof. unfold same_chain_fbs. intros [? [? ?]] [? [? ?]]. repeat split; congruence || lia. Qed.

Lemma same_chain_fbs_step s s' :
  frameBuffers s' = frameBuffers s -> chain_id s' = chain_id s ->
  (fresh s <= fresh s')%nat -> same_chain_fbs s s'.
Proof. unfold same_chain_fbs. auto. Qed.

Lemma same_fbs_trans a b c : same_fbs a b -> same_fbs b c -> same_fbs a c.
Proof. unfold same_fbs. intros [? ?] [? ?]. split; congruence || lia. Qed.

Lemma same_fbs_step s s' :
  frameBuffers s' = frameBuffers s -> chain_id s' = chain_id s ->
  (fresh s <= fresh s')%nat -> same_fbs s s'.
Proof. unfold same_fbs. auto. Qed.

Lemma same_fbs_chain s s' :
  frameBuffers s' = frameBuffers s -> (fresh s <= fresh s')%nat -> same_fbs s s'.
Proof. unfold same_fbs. auto. Qed.

Create HintDb c5_db.
#[local] Hint Resolve quiet_trace_nil quiet_trace_app quiet_trace_plain
  quiet_trace_submit_fail quiet_trace_submit_wait same_chain_fbs_trans
  same_chain_fbs_step same_fbs_trans same_fbs_step same_fbs_chain : c5_db.

(** A fragment that keeps the framebuffers and the swapchain keeps the
    invariant and the live framebuffers. *)
Lemma hoare_keep {A} env (m : M A) (X : nat -> Prop) :
  ext quiet_trace same_chain_fbs m ->
  hoare (fun s => good s /\ live env s /\ X (chain_id s)) m
        (fun _ s => good s /\ live env s /\ X (chain_id s)).
Proof.
  intros E. apply hoare_ext with (R := same_chain_fbs); [exact E | tauto |].
  intros s a s' new [G [L Hx]] _ Et Tn [Hf [Hfb Hc]]. split; [|split].
  - apply good_ext with (ok := fun _ => False) (s := s) (new := new);
      [exact G | exact Et | exact Tn | intros _ [] | exact Hf |].
    rewrite Hfb. eapply Forall_lt_mono; [apply G | exact Hf].
  - apply live_ext with (ok := fun _ => False) (s := s) (new := new); auto.
  - rewrite Hc. exact Hx.
Qed.

(** A fragment that keeps the framebuffers keeps the invariant. *)
Lemma hoare_keep_good {A} (m : M A) :
  ext quiet_trace same_fbs m -> hoare good m (fun _ => good).
Proof.
  intros E. apply hoare_ext with (R := same_fbs); [exact E | tauto |].
  intros s a s' new G _ Et Tn [Hf Hfb].
  apply good_ext with (ok := fun _ => False) (s := s) (new := new);
    [exact G | exact Et | exact Tn | intros _ [] | exact Hf |].
  rewrite Hfb. eapply Forall_lt_mono; [apply G | exact Hf].
Qed.

(** Running a program step by step. *)

Lemma bind_gets {A B} (f : Loop -> A) (k : A -> M B) s : bind (gets f) k s = k (f s) s.
Proof. reflexivity. Qed.

Lemma bind_modify {B} f (k : unit -> M B) s : bind (modify f) k s = k tt (f s).
Proof. reflexivity. Qed.

Lemma bind_at_some {B} l i x (k : nat -> M B) s :
  nth_error l i = Some x -> bind (at_ l i) k s = k x s.
Proof. unfold at_. intros H. rewrite H. reflexivity. Qed.

Lemma bind_at_none {B} l i (k : nat -> M B) s :
  nth_error l i = None -> bind (at_ l i) k s = Undefined s.
Proof. unfold at_. intros H. rewrite H. reflexivity. Qed.

Lemma bind_Done {A B} (m : M A) (k : A -> M B) s a s' :
  m s = Done a s' -> bind m k s = k a s'.
Proof. intros H. unfold bind. rewrite H. reflexivity. Qed.

Lemma vkCreate_ok env k c s :
  is_success (result_of env c (ncalls s)) = true ->
  exists s', vkCreate env k c s = Done (result_of env c (ncalls s), fresh s) s' /\
    trace s' = trace s ++ [EvCreate k (fresh s) (result_of env c (ncalls s))] /\
    fresh s' = S (fresh s) /\ frameBuffers s' = frameBuffers s /\
    chain_id s' = chain_id s /\ chainImageViews s' = chainImageViews s /\
    chainImages s' = chainImages s.
Proof.
  destruct s. unfold vkCreate. cbn. intros H. rewrite H. cbn.
  eexists; split; [reflexivity|]. cbn. repeat split.
Qed.

Lemma vkCreate_fail env k c s :
  is_success (result_of env c (ncalls s)) = false ->
  exists s', vkCreate env k c s = Done (result_of env c (ncalls s), VK_NULL_HANDLE) s' /\
    trace s' = trace s ++ [EvCreate k VK_NULL_HANDLE (result_of env c (ncalls s))].
Proof.
  destruct s. unfold vkCreate. cbn. intros H. rewrite H. cbn.
  eexists; split; [reflexivity|]. reflexivity.
Qed.

Lemma nth_error_list_set_same l i v :
  (i < length l)%nat -> nth_error (list_set l i v) i = Some v.
Proof.
  revert i. induction l as [|x l IH]; intros [|i] H; cbn in *; try lia; auto;
    apply IH; lia.
Qed.

Lemma nth_error_list_set_other l i j v :
  j <> i -> nth_error (list_set l i v) j = nth_error l j.
Proof.
  revert i j. induction l as [|x l IH]; intros [|i] [|j] H; cbn; auto; try congruence;
    apply IH; congruence.
Qed.

Lemma Forall_list_set (P : nat -> Prop) l i v :
  Forall P l -> P v -> Forall P (list_set l i v).
Proof.
  revert i. induction l as [|x l IH]; intros [|i] Hl Hv; cbn; auto;
    inversion Hl; subst; constructor; auto.
Qed.

Lemma makeFramebuffers_loop_live env n : forall i s,
  good s -> (forall j, (j < i)%nat -> live_at s j) ->
  match makeFramebuffers_loop env i n s with
  | Done _ s' =>
      good s' /\ chain_id s' = chain_id s /\ chainImageViews s' = chainImageViews s /\
      (forall j, (j < i + n)%nat -> live_at s' j)
  | r => records_on_live (trace (final_state r))
  end.
Proof.
  induction n as [|n IH]; intros i s G Hl.
  - cbn. split; [exact G|]. split; [reflexivity|]. split; [reflexivity|].
    intros j Hj. apply Hl. lia.
  - cbn [makeFramebuffers_loop]. rewrite bind_gets.
    destruct (nth_error (chainImageViews s) i) as [v|] eqn:Hv;
      [rewrite (bind_at_some _ _ _ _ _ Hv) | rewrite (bind_at_none _ _ _ _ Hv); exact (proj1 G)].
    rewrite bind_gets.
    destruct (nth_error (frameBuffers s) i) as [f|] eqn:Hf;
      [rewrite (bind_at_some _ _ _ _ _ Hf) | rewrite (bind_at_none _ _ _ _ Hf); exact (proj1 G)].
    destruct (is_success (result_of env CallCreateFramebuffer (ncalls s))) eqn:Hr.
    + destruct (vkCreate_ok env KFramebuffer CallCreateFramebuffer s Hr)
        as [s1 [E [Et [Ef [Efb [Ec [Ev _]]]]]]].
      rewrite (bind_Done _ _ _ _ _ E). cbn [fst snd]. rewrite Hr. cbn [negb].
      rewrite bind_gets, bind_modify.
      set (s2 := set_frameBuffers (list_set (frameBuffers s1) i (fresh s)) s1).
      assert (G2 : good s2).
      { apply good_ext with (ok := fun _ => False) (s := s)
          (new := [EvCreate KFramebuffer (fresh s)
                     (result_of env CallCreateFramebuffer (ncalls s))]);
          [exact G | exact Et | repeat constructor | intros _ [] | cbn; lia |].
        cbn. rewrite Ef, Efb. apply Forall_list_set; [|lia].
        eapply Forall_lt_mono; [apply G | lia]. }
      assert (L2 : forall j, (j < S i)%nat -> live_at s2 j).
      { intros j Hj. unfold live_at. cbn. rewrite Efb, Et.
        destruct (Nat.eq_dec j i) as [->|Hne].
        - exists (fresh s). split.
          + apply nth_error_list_set_same. apply nth_error_Some. congruence.
          + rewrite in_app_iff. intros [I|I].
            * destruct G as [_ [D _]]. specialize (D _ I). lia.
            * cbn in I. destruct I as [I|[]]. discriminate.
        - destruct (Hl j ltac:(lia)) as [fb [N D]]. exists fb.
          rewrite nth_error_list_set_other by exact Hne. split; [exact N|].
          rewrite in_app_iff. intros [I|I]; [exact (D I)|].
          cbn in I. destruct I as [I|[]]. discriminate. }
      specialize (IH (S i) s2 G2 L2).
      destruct (makeFramebuffers_loop env (S i) n s2); auto.
      destruct IH as [G' [C' [V' L']]]. split; [exact G'|]. split; [|split].
      * rewrite C'. cbn. exact Ec.
      * rewrite V'. cbn. exact Ev.
      * intros j Hj. apply L'. lia.
    + destruct (vkCreate_fail env KFramebuffer CallCreateFramebuffer s Hr) as [s1 [E Et]].
      rewrite (bind_Done _ _ _ _ _ E). cbn [fst snd]. rewrite Hr. cbn.
      rewrite Et. apply records_on_live_app with (ok := fun _ => False);
        [apply G | repeat constructor | intros _ []].
Qed.


Lemma length_list_set l i v : length (list_set l i v) = length l.
Proof. revert i. induction l as [|x l IH]; intros [|i]; cbn; auto. Qed.

Lemma length_resize l n : length (resize l n) = n.
Proof. unfold resize. rewrite length_app, length_firstn, repeat_length. lia. Qed.

Lemma getSwapChainImageHandles_count env s s' :
  getSwapChainImageHandles env s = Done true s' ->
  length (chainImages s') = swap_image_count env (chain_id s').
Proof.
  destruct s. unfold getSwapChainImageHandles. split_results; intros H;
    unfold ret in H; inversion H; subst; cbn; apply length_seq.
Qed.

Lemma makeChainImageViews_loop_shape env n : forall i s u s',
  makeChainImageViews_loop env i n s = Done u s' ->
  length (chainImageViews s') = length (chainImageViews s) /\
  chainImages s' = chainImages s /\ chain_id s' = chain_id s.
Proof.
  induction n as [|n IH]; intros i s u s' H.
  - cbn in H. inversion H; subst. auto.
  - cbn [makeChainImageViews_loop] in H. rewrite bind_gets in H.
    destruct (nth_error (chainImages s) i) as [x|] eqn:Hx;
      [rewrite (bind_at_some _ _ _ _ _ Hx) in H | rewrite (bind_at_none _ _ _ _ Hx) in H; discriminate].
    rewrite bind_gets in H.
    destruct (nth_error (chainImageViews s) i) as [v|] eqn:Hv;
      [rewrite (bind_at_some _ _ _ _ _ Hv) in H | rewrite (bind_at_none _ _ _ _ Hv) in H; discriminate].
    destruct (is_success (result_of env CallCreateImageView (ncalls s))) eqn:Hr.
    + destruct (vkCreate_ok env KImageView CallCreateImageView s Hr)
        as [s1 [E [_ [_ [_ [Ec [Ev Ei]]]]]]].
      rewrite (bind_Done _ _ _ _ _ E) in H. cbn [fst snd] in H. rewrite Hr in H.
      cbn [negb] in H. rewrite bind_gets, bind_modify in H.
      apply IH in H as [L [I C]]. cbn in L, I, C.
      rewrite L, length_list_set, Ev, I, Ei, C, Ec. auto.
    + destruct (vkCreate_fail env KImageView CallCreateImageView s Hr) as [s1 [E _]].
      rewrite (bind_Done _ _ _ _ _ E) in H. cbn [fst snd] in H. rewrite Hr in H.
      cbn [negb] in H. unfold throw in H. discriminate.
Qed.

Lemma makeChainImageViews_shape env s u s' :
  makeChainImageViews env s = Done u s' ->
  length (chainImageViews s') = length (chainImages s') /\
  chainImages s' = chainImages s /\ chain_id s' = chain_id s.
Proof.
  unfold makeChainImageViews. intros H. rewrite bind_gets in H. cbv beta in H.
  rewrite bind_modify in H. apply makeChainImageViews_loop_shape in H as [L [I C]].
  cbn in L, I, C. rewrite L, I, C, length_resize. auto.
Qed.

Ltac unfold_monad := cbv beta iota zeta delta [bind ret throw gets modify emit api new_handle at_].

Lemma createDepthBuffer_views env s u s' :
  createDepthBuffer env s = Done u s' ->
  chainImageViews s' = chainImageViews s /\ chain_id s' = chain_id s.
Proof.
  destruct s. unfold createDepthBuffer, findMemoryType, transitionImageLayout,
    submitAndWait, vkCreate, vkDestroy.
  destruct (depth_format_supported env), (memory_type_found env);
    repeat (unfold_monad; cbn; case_result); unfold_monad; cbn;
    intros H; inversion H; subst; cbn; auto.
Qed.

Lemma acquire_phase_index env s i s' :
  acquire_phase env s = Done i s' ->
  i = acquired_index env (nacquires s) (chain_id s) /\ chain_id s' = chain_id s.
Proof.
  destruct s. unfold acquire_phase. split_results; intros H;
    unfold ret, throw in H; inversion H; subst; cbn; auto.
Qed.

Lemma hoare_post {A} P (m : M A) Q (Q' : A -> Loop -> Prop) :
  hoare P m Q -> (forall s a s', P s -> m s = Done a s' -> Q' a s') ->
  hoare P m (fun a s => Q a s /\ Q' a s).
Proof.
  intros H H' s Ps. specialize (H s Ps). specialize (H' s).
  destruct (m s) as [a s1|msg s1|c s1|s1] eqn:E; auto.
Qed.

Lemma hoare_frame {A} P (m : M A) Q (X : Loop -> Prop) :
  hoare P m Q -> (forall s a s', P s -> X s -> m s = Done a s' -> X s') ->
  hoare (fun s => P s /\ X s) m (fun a s => Q a s /\ X s).
Proof.
  intros H H' s [Ps Xs]. specialize (H s Ps). specialize (H' s).
  destruct (m s) as [a s1|msg s1|c s1|s1] eqn:E; auto.
  split; [exact H | eapply H'; eauto].
Qed.

Lemma hoare_modify P f (Q : unit -> Loop -> Prop) :
  (forall s, P s -> Q tt (f s)) -> hoare P (modify f) Q.
Proof. intros H s Ps. exact (H s Ps). Qed.

Lemma hoare_exit {A} P c (Q : A -> Loop -> Prop) :
  (forall s, P s -> good s) -> hoare P (exit c) Q.
Proof. intros H s Ps. apply (H s Ps). Qed.

(** The fragments with no framebuffer destruction and no render pass. *)
Lemma quiet_keep {A} (m : M A) :
  (forall (T : list Event -> Prop) (Rel : Loop -> Loop -> Prop),
     T [] -> (forall a b, T a -> T b -> T (a ++ b)) ->
     (forall e, plain e = true -> T [e]) ->
     (forall q i r, is_success r = false -> T [EvQueueSubmit q i r]) ->
     (forall q i r, T [EvQueueSubmit q i VK_SUCCESS; EvQueueWaitIdle q r]) ->
     (forall a b c, Rel a b -> Rel b c -> Rel a c) ->
     (forall s s', frameBuffers s' = frameBuffers s -> chain_id s' = chain_id s ->
        (fresh s <= fresh s')%nat -> Rel s s') ->
     ext T Rel m) ->
  ext quiet_trace same_chain_fbs m.
Proof. intros H. apply H; eauto with c5_db. Qed.

Lemma quiet_keep_fbs {A} (m : M A) :
  (forall (T : list Event -> Prop) (Rel : Loop -> Loop -> Prop),
     T [] -> (forall a b, T a -> T b -> T (a ++ b)) ->
     (forall e, plain e = true -> T [e]) ->
     (forall q i r, is_success r = false -> T [EvQueueSubmit q i r]) ->
     (forall q i r, T [EvQueueSubmit q i VK_SUCCESS; EvQueueWaitIdle q r]) ->
     (forall a b c, Rel a b -> Rel b c -> Rel a c) ->
     (forall s s', frameBuffers s' = frameBuffers s -> chain_id s' = chain_id s ->
        (fresh s <= fresh s')%nat -> Rel s s') ->
     (forall s s', frameBuffers s' = frameBuffers s -> (fresh s <= fresh s')%nat -> Rel s s') ->
     ext T Rel m) ->
  ext quiet_trace same_fbs m.
Proof. intros H. apply H; eauto with c5_db. Qed.

Ltac keep_good e := apply hoare_keep_good, quiet_keep_fbs; intros; eapply e; eauto.
Ltac keep_true env e :=
  apply (hoare_keep env _ (fun _ => True)), quiet_keep; intros; eapply e; eauto.
Ltac post := intros; cbv beta in *; tauto.

Lemma hoare_makeFramebuffers env :
  hoare (fun s => good s /\ length (chainImageViews s) = swap_image_count env (chain_id s))
    (makeFramebuffers env) (fun _ s => good s /\ live env s).
Proof.
  intros s [G Hn]. unfold makeFramebuffers. rewrite bind_gets. cbv beta.
  assert (H0 : forall j, (j < 0)%nat -> live_at s j) by (intros; lia).
  pose proof (makeFramebuffers_loop_live env (length (chainImageViews s)) 0 s G H0) as H.
  destruct (makeFramebuffers_loop env 0 (length (chainImageViews s)) s); auto.
  destruct H as [G' [C' [_ L']]]. split; [exact G'|].
  intros i Hi. apply L'. rewrite C' in Hi. lia.
Qed.

Lemma hoare_rebuild env :
  hoare good (rebuild env) (fun _ s => good s /\ live env s).
Proof.
  unfold rebuild.
  eapply hoare_bind; [keep_good ext_createDepthBuffer|]. intros ?.
  eapply hoare_bind; [apply (hoare_modify good _ (fun _ => good)); intros s G; exact G|]. intros ?.
  eapply hoare_bind; [keep_good ext_createSwapChain|].
  intros ok. destruct ok; cbn [negb]; [|apply hoare_throw; auto].
  eapply hoare_bind.
  { apply hoare_post with
      (Q' := fun ok s => ok = true ->
               length (chainImages s) = swap_image_count env (chain_id s));
      [keep_good ext_getSwapChainImageHandles|].
    intros s b s' _ E Hb. subst b. exact (getSwapChainImageHandles_count env s s' E). }
  intros ok. destruct ok; cbn [negb]; [|apply hoare_throw; post].
  eapply hoare_bind.
  { apply hoare_post with
      (Q' := fun _ s => length (chainImageViews s) = swap_image_count env (chain_id s)).
    - eapply hoare_conseq; [keep_good ext_makeChainImageViews | post | intros ? ? Hq; exact Hq].
    - intros s b s' [_ Hc] E. specialize (Hc eq_refl).
      destruct (makeChainImageViews_shape env s b s' E) as [L [I C]].
      rewrite L, I, C. exact Hc. }
  intros ?. eapply hoare_conseq; [apply hoare_makeFramebuffers | post | post].
Qed.

Lemma destroy_all_run k l s :
  destroy_all k l s = Done tt (set_trace (trace s ++ map (EvDestroy k) l) s).
Proof.
  revert s. induction l as [|h l IH]; intros s; cbn.
  - rewrite app_nil_r. destruct s; reflexivity.
  - rewrite IH. cbn. rewrite app_assoc_r. reflexivity.
Qed.

(** The teardown of [recreate], followed by [rebuild]. *)
Lemma recreate_run env s :
  recreate env s =
  rebuild env
    (set_trace
       (trace s ++ EvDeviceWaitIdle (result_of env CallDeviceWaitIdle (ncalls s)) ::
        map (EvDestroy KFramebuffer) (frameBuffers s) ++
        map (EvDestroy KImageView) (chainImageViews s) ++
        [EvDestroy KSwapchain (swapchain s); EvDestroy KImageView (depthImageView s);
         EvDestroy KImage (depthImage s); EvDestroy KDeviceMemory (depthMemory s)])
       (set_ncalls (S (ncalls s)) s)).
Proof.
  destruct s. unfold recreate, vkDeviceWaitIdle. cbn -[rebuild destroy_all].
  rewrite (bind_Done _ _ _ _ _ (destroy_all_run _ _ _)). cbn -[rebuild destroy_all].
  rewrite (bind_Done _ _ _ _ _ (destroy_all_run _ _ _)). cbn -[rebuild].
  rewrite ?app_assoc_r. reflexivity.
Qed.

Lemma records_on_live_norp tr new :
  records_on_live tr -> Forall (fun e => render_target e = None) new ->
  records_on_live (tr ++ new).
Proof.
  intros H Hn pre e post fb E Rt.
  apply app_eq_app in E as [l [[E1 E2]|[E1 E2]]].
  - destruct l as [|x l].
    + cbn in E2. subst new. inversion Hn as [|? ? He]; subst. congruence.
    + cbn in E2. injection E2 as Ex Ep. subst. eapply H; eauto.
  - subst new. apply Forall_app in Hn as [_ He]. inversion He as [|? ? Hx]; subst.
    congruence.
Qed.

Lemma no_render_destroys k l :
  Forall (fun e => render_target e = None) (map (EvDestroy k) l).
Proof. induction l; constructor; auto. Qed.

Lemma good_teardown env s :
  good s ->
  good (set_trace
       (trace s ++ EvDeviceWaitIdle (result_of env CallDeviceWaitIdle (ncalls s)) ::
        map (EvDestroy KFramebuffer) (frameBuffers s) ++
        map (EvDestroy KImageView) (chainImageViews s) ++
        [EvDestroy KSwapchain (swapchain s); EvDestroy KImageView (depthImageView s);
         EvDestroy KImage (depthImage s); EvDestroy KDeviceMemory (depthMemory s)])
       (set_ncalls (S (ncalls s)) s)).
Proof.
  intros [R [D [F P]]]. unfold good. cbn. repeat split; [| |exact F|exact P].
  - apply records_on_live_norp; [exact R|].
    constructor; [reflexivity|].
    apply Forall_app; split; [apply no_render_destroys|].
    apply Forall_app; split; [apply no_render_destroys|].
    repeat constructor.
  - intros h I. apply in_app_iff in I as [I|I]; [exact (D h I)|].
    destruct I as [I|I]; [discriminate|].
    apply in_app_iff in I as [I|I].
    + apply in_map_iff in I as [x [Ex Ix]]. injection Ex as <-.
      rewrite Forall_forall in F. exact (F x Ix).
    + apply in_app_iff in I as [I|I].
      * apply in_map_iff in I as [x [Ex _]]. discriminate.
      * cbn in I. repeat (destruct I as [I|I]; [discriminate|]). contradiction.
Qed.

Lemma hoare_recreate env :
  hoare good (recreate env) (fun _ s => good s /\ live env s).
Proof.
  intros s G. rewrite recreate_run. apply hoare_rebuild, good_teardown, G.
Qed.

Lemma frame_done env fb s s' new :
  good s -> live env s -> ~ In (EvDestroy KFramebuffer fb) (trace s) ->
  trace s' = trace s ++ new -> Forall (quiet (eq fb)) new ->
  frameBuffers s' = frameBuffers s -> chain_id s' = chain_id s -> fresh s' = fresh s ->
  good s' /\ live env s'.
Proof.
  intros G L D Et Hn Hfb Hc Hf. split.
  - apply good_ext with (ok := eq fb) (s := s) (new := new);
      [exact G | exact Et | exact Hn | intros f <-; exact D | lia |].
    rewrite Hfb, Hf. exact (proj1 (proj2 (proj2 G))).
  - apply live_ext with (ok := eq fb) (s := s) (new := new); auto.
Qed.

(** Recording and submitting the frame of a live framebuffer. *)
Lemma hoare_render env i :
  hoare (fun s => good s /\ live env s /\ (i < swap_image_count env (chain_id s))%nat)
    (render_phase env i) (fun _ s => good s /\ live env s).
Proof.
  intros s [G [L Hi]]. destruct (L i Hi) as [fb [Hfb D]].
  unfold render_phase. rewrite bind_gets, (bind_at_some _ _ _ _ _ Hfb), bind_gets.
  destruct (nth_error (commandBuffers s) i) as [cb|] eqn:Hcb;
    [rewrite (bind_at_some _ _ _ _ _ Hcb) | rewrite (bind_at_none _ _ _ _ Hcb); exact (proj1 G)].
  unfold recordRenderPass, submitCommandBuffer.
  repeat (unfold_monad; cbn; first [case_result | rewrite Hcb]).
  all: first
    [ eapply (frame_done env fb s);
      [ exact G | exact L | exact D | cbn; rewrite ?app_assoc_r; reflexivity
      | repeat constructor | reflexivity | reflexivity | reflexivity ]
    | cbn; rewrite ?app_assoc_r; apply records_on_live_app with (ok := eq fb);
      [exact (proj1 G) | repeat constructor | intros f <-; exact D] ].
Qed.

Section Loop.

Variable env : Env.
(** The driver's contract: [vkAcquireNextImageKHR] returns an index of
    the current swapchain. *)
Hypothesis acquired_in_range :
  forall k c, (acquired_index env k c < swap_image_count env c)%nat.

Lemma hoare_acquire :
  hoare (Inv env) (acquire_phase env)
    (fun i s => good s /\ live env s /\ (i < swap_image_count env (chain_id s))%nat).
Proof.
  eapply hoare_conseq.
  - apply hoare_post with (Q' := fun i s => (i < swap_image_count env (chain_id s))%nat).
    + keep_true env ext_acquire_phase.
    + intros s i s' _ E. destruct (acquire_phase_index env s i s' E) as [-> C].
      rewrite C. apply acquired_in_range.
  - intros s [G L]. split; [exact G|]. split; [exact L | exact I].
  - intros i s [[G [L _]] H]. auto.
Qed.

Ltac post_inv := intros; cbv beta delta [Inv] in *; tauto.

Lemma hoare_iteration : hoare (Inv env) (iteration env) (fun _ => Inv env).
Proof.
  unfold iteration.
  eapply hoare_bind; [apply hoare_acquire|]. intros i.
  eapply hoare_bind; [apply hoare_render|]. intros ?.
  apply hoare_bind with (Q := fun _ => Inv env);
    [eapply hoare_conseq; [keep_true env ext_present_phase | post_inv | post_inv]|].
  intros ok.
  apply hoare_bind with (Q := fun _ => Inv env).
  { unfold handle_present. destruct ok; cbn [negb].
    - intros s H. exact H.
    - eapply hoare_conseq; [apply hoare_recreate | post_inv | post_inv]. }
  intros ?. eapply hoare_conseq; [keep_true env ext_frame_end | post_inv | post_inv].
Qed.

Lemma hoare_run n : hoare (Inv env) (run env n) (fun _ => Inv env).
Proof.
  induction n as [|n IH]; cbn.
  - intros s H. exact H.
  - apply hoare_bind with (Q := fun _ => Inv env); [apply hoare_iteration | intros; exact IH].
Qed.

Lemma hoare_setup : hoare good (setup env) (fun _ => Inv env).
Proof.
  unfold setup.
  eapply hoare_bind; [keep_good ext_createSwapChain|].
  intros ok. destruct ok; cbn [negb]; [|apply hoare_exit; auto].
  eapply hoare_bind.
  { apply hoare_post with
      (Q' := fun ok s => ok = true ->
               length (chainImages s) = swap_image_count env (chain_id s));
      [keep_good ext_getSwapChainImageHandles|].
    intros s b s' _ E Hb. subst b. exact (getSwapChainImageHandles_count env s s' E). }
  intros ok. destruct ok; cbn [negb]; [|apply hoare_exit; post].
  eapply hoare_bind; [apply hoare_gets|]. intros images.
  eapply hoare_bind.
  { apply (hoare_modify _ _ (fun _ s => good s /\
             length (chainImages s) = swap_image_count env (chain_id s))).
    intros s [[G Hc] _]. split; [exact G | exact (Hc eq_refl)]. }
  intros ?.
  eapply hoare_bind.
  { apply hoare_post with
      (Q' := fun _ s => length (chainImageViews s) = swap_image_count env (chain_id s)).
    - eapply hoare_conseq; [keep_good ext_makeChainImageViews | post | intros ? ? Hq; exact Hq].
    - intros s b s' [_ Hc] E.
      destruct (makeChainImageViews_shape env s b s' E) as [L [I C]].
      rewrite L, I, C. exact Hc. }
  intros ?.
  eapply hoare_bind.
  { apply hoare_frame; [keep_good ext_createDepthBuffer|].
    intros s b s' _ Hx E. destruct (createDepthBuffer_views env s b s' E) as [V C].
    rewrite V, C. exact Hx. }
  intros ?.
  eapply hoare_bind; [apply hoare_gets|]. intros images2.
  eapply hoare_bind.
  { apply (hoare_modify _ _ (fun _ s => good s /\
             length (chainImageViews s) = swap_image_count env (chain_id s))).
    intros s [[G Hx] _]. split; [|exact Hx].
    destruct G as [R [D [_ P]]]. unfold good. cbn.
    split; [exact R|]. split; [exact D|]. split; [|exact P].
    apply Forall_forall. intros h Ih. apply repeat_spec in Ih. unfold VK_NULL_HANDLE in Ih. lia. }
  intros ?.
  eapply hoare_bind;
    [eapply hoare_conseq; [apply hoare_makeFramebuffers | post | intros ? ? Hq; exact Hq]|].
  intros ?.
  eapply hoare_bind; [apply hoare_gets|]. intros images3.
  eapply hoare_bind;
    [eapply hoare_conseq; [keep_true env ext_createCommandBuffers | post | intros ? ? Hq; exact Hq]|].
  intros cbs. apply hoare_modify. intros s [G [L _]]. split; [exact G | exact L].
Qed.

Lemma good_init : good init_state.
Proof.
  unfold good. cbn. split; [|split; [|split]].
  - intros pre e post fb E. destruct pre; discriminate.
  - intros h [].
  - constructor.
  - lia.
Qed.

Lemma main_records_on_live n :
  records_on_live (trace (final_state (main_prog env n init_state))).
Proof.
  assert (H : hoare good (main_prog env n) (fun _ => Inv env)).
  { unfold main_prog. eapply hoare_bind; [apply hoare_setup | intros; apply hoare_run]. }
  specialize (H init_state good_init).
  destruct (main_prog env n init_state); cbn in *; auto.
  exact (proj1 (proj1 H)).
Qed.

End Loop.

(** C5: on an out-of-date present ([handle_present false]) the loop
    first calls [vkDeviceWaitIdle], then destroys every framebuffer of
    [frameBuffers], every image view of [chainImageViews], the swapchain
    and the depth image view, image and memory, and only then runs
    [rebuild], which creates the new depth buffer, swapchain, image
    handles, image views and framebuffers.  And in every run of the
    program, when the driver returns acquired indices within the image
    count of the current swapchain, no render pass begins on a framebuffer
    destroyed earlier in the trace (a run that reaches an out-of-range
    vector access stops there). *)
Theorem recreate_teardown_then_rebuild (env : Env)
  (acquired_in_range :
     forall k c, (acquired_index env k c < swap_image_count env c)%nat) :
  (forall s,
     handle_present env false s =
     rebuild env
       (set_trace
          (trace s ++ EvDeviceWaitIdle (result_of env CallDeviceWaitIdle (ncalls s)) ::
           map (EvDestroy KFramebuffer) (frameBuffers s) ++
           map (EvDestroy KImageView) (chainImageViews s) ++
           [EvDestroy KSwapchain (swapchain s); EvDestroy KImageView (depthImageView s);
            EvDestroy KImage (depthImage s); EvDestroy KDeviceMemory (depthMemory s)])
          (set_ncalls (S (ncalls s)) s))) /\
  (forall n, records_on_live (trace (final_state (main_prog env n init_state)))).
Proof.
  split.
  - intros s. exact (recreate_run env s).
  - intros n. exact (main_records_on_live env acquired_in_range n).
Qed.

Lemma recreate_teardown_then_rebuild_witness :
  let env3 := env_with (failing_call CallQueuePresent VK_ERROR_OUT_OF_DATE_KHR)
                (fun _ => 3%nat) (fun _ _ => 2%nat) in
  (forall k c, (acquired_index env3 k c < swap_image_count env3 c)%nat) /\
  records_on_live (trace (final_state (main_prog env3 2 init_state))).
Proof.
  intros env3. split.
  - intros k c. cbn. lia.
  - apply (recreate_teardown_then_rebuild env3). intros k c. cbn. lia.
Defined.

(** ** Further properties of the setup code *)

Lemma land_shiftl_1_eqb (a : Z) (n : nat) :
  (Z.land a (Z.shiftl 1 (Z.of_nat n)) =? 0) = negb (Z.testbit a (Z.of_nat n)).
Proof.
  rewrite Z.shiftl_1_l.
  destruct (Z.testbit a (Z.of_nat n)) eqn:E; cbn.
  - apply Z.eqb_neq. intros H0.
    assert (Z.testbit (Z.land a (2 ^ Z.of_nat n)) (Z.of_nat n) = false) as H1
      by (rewrite H0; apply Z.bits_0).
    rewrite Z.land_spec, E, Z.pow2_bits_true in H1 by lia. discriminate.
  - apply Z.eqb_eq. apply Z.bits_inj'. intros m Hm.
    rewrite Z.land_spec, Z.bits_0, Z.pow2_bits_eqb by lia.
    destruct (Z.eqb_spec (Z.of_nat n) m) as [<-|]; [rewrite E|]; cbn; try reflexivity; apply andb_false_r.
Qed.

Lemma findMemoryType_loop_spec bits props (l : list Z) (k : nat) :
  match Memory.findMemoryType_loop bits props l k with
  | inr i => (k <= i < k + length l)%nat /\
             Z.testbit bits (Z.of_nat i) = true /\ Z.land (nth (i - k) l 0) props = props /\
             forall j, (k <= j < i)%nat ->
               ~ (Z.testbit bits (Z.of_nat j) = true /\ Z.land (nth (j - k) l 0) props = props)
  | inl _ => forall j, (k <= j < k + length l)%nat ->
               ~ (Z.testbit bits (Z.of_nat j) = true /\ Z.land (nth (j - k) l 0) props = props)
  end.
Proof.
  revert k. induction l as [|f l IH]; intros k; cbn [Memory.findMemoryType_loop length].
  - intros j Hj. lia.
  - rewrite land_shiftl_1_eqb, negb_involutive.
    destruct (Z.testbit bits (Z.of_nat k)) eqn:Eb; cbn [andb];
      [destruct (Z.eqb_spec (Z.land f props) props) as [Ef|Ef]|].
    + replace (k - k)%nat with 0%nat by lia. cbn.
      split; [lia|]. split; [exact Eb|]. split; [exact Ef|]. intros j Hj. lia.
    + specialize (IH (S k)). destruct (Memory.findMemoryType_loop bits props l (S k)) as [m|i].
      * intros j Hj [Hb Hl]. destruct (Nat.eq_dec j k) as [->|Hne].
        -- rewrite Nat.sub_diag in Hl. cbn in Hl. contradiction.
        -- apply (IH j); [lia|]. split; [exact Hb|].
           replace (j - k)%nat with (S (j - S k)) in Hl by lia. exact Hl.
      * destruct IH as (Hr & Hb & Hl & Hmin). split; [lia|]. split; [exact Hb|]. split.
        -- replace (i - k)%nat with (S (i - S k)) by lia. exact Hl.
        -- intros j Hj [Hb' Hl']. destruct (Nat.eq_dec j k) as [->|Hne].
           ++ rewrite Nat.sub_diag in Hl'. cbn in Hl'. contradiction.
           ++ apply (Hmin j); [lia|]. split; [exact Hb'|].
              replace (j - k)%nat with (S (j - S k)) in Hl' by lia. exact Hl'.
    + specialize (IH (S k)). destruct (Memory.findMemoryType_loop bits props l (S k)) as [m|i].
      * intros j Hj [Hb Hl]. destruct (Nat.eq_dec j k) as [->|Hne].
        -- rewrite Eb in Hb. discriminate.
        -- apply (IH j); [lia|]. split; [exact Hb|].
           replace (j - k)%nat with (S (j - S k)) in Hl by lia. exact Hl.
      * destruct IH as (Hr & Hb & Hl & Hmin). split; [lia|]. split; [exact Hb|]. split.
        -- replace (i - k)%nat with (S (i - S k)) by lia. exact Hl.
        -- intros j Hj [Hb' Hl']. destruct (Nat.eq_dec j k) as [->|Hne].
           ++ rewrite Eb in Hb'. discriminate.
           ++ apply (Hmin j); [lia|]. split; [exact Hb'|].
              replace (j - k)%nat with (S (j - S k)) in Hl' by lia. exact Hl'.
Qed.

(** X1: [findMemoryType] returns the first index [i] below [memoryTypeCount] whose bit is set in [memoryTypeBits] and whose property flags contain all of [properties]; it throws exactly when no index is suitable. *)
Theorem findMemoryType_first_suitable (memoryTypeBits properties : Z) (memoryTypes : list Z) :
  (forall i, Memory.findMemoryType memoryTypeBits properties memoryTypes = inr i <->
     (i < length memoryTypes)%nat /\ Memory.suitable memoryTypeBits properties memoryTypes i /\
     forall j, (j < i)%nat -> ~ Memory.suitable memoryTypeBits properties memoryTypes j) /\
  ((exists msg, Memory.findMemoryType memoryTypeBits properties memoryTypes = inl msg) <->
     forall j, (j < length memoryTypes)%nat -> ~ Memory.suitable memoryTypeBits properties memoryTypes j).
Proof.
  pose proof (findMemoryType_loop_spec memoryTypeBits properties memoryTypes 0) as H.
  unfold Memory.findMemoryType, Memory.suitable.
  destruct (Memory.findMemoryType_loop memoryTypeBits properties memoryTypes 0) as [msg|i0] eqn:E.
  - split.
    + intros i. split; [discriminate|]. intros (Hi & Hs & _). exfalso.
      apply (H i); [lia|]. rewrite Nat.sub_0_r. exact Hs.
    + split; [intros _ j Hj; specialize (H j); rewrite Nat.sub_0_r in H; apply H; lia|].
      intros _. exists msg. reflexivity.
  - rewrite !Nat.sub_0_r in H. destruct H as (Hr & Hb & Hl & Hmin). split.
    + intros i. split.
      * intros Hi. injection Hi as <-. split; [lia|]. split; [split; assumption|].
        intros j Hj. specialize (Hmin j). rewrite Nat.sub_0_r in Hmin. apply Hmin. lia.
      * intros (Hi & Hs & Hmin'). f_equal.
        destruct (Nat.lt_trichotomy i i0) as [Hlt|[Heq|Hgt]]; [| exact (eq_sym Heq) |].
        -- exfalso. specialize (Hmin i). rewrite Nat.sub_0_r in Hmin. apply Hmin; [lia | exact Hs].
        -- exfalso. apply (Hmin' i0 Hgt). split; assumption.
    + split; [intros [msg Hm]; discriminate|].
      intros Hnone. exfalso. apply (Hnone i0); [lia|]. split; assumption.
Qed.

Lemma getSurfaceFormat_inner_existsb (l : list Surface.VkSurfaceFormatKHR) :
  Surface.getSurfaceFormat_inner l =
    if existsb (fun f => Surface.sf_colorSpace f =? Surface.colorSpace) l
    then Some Surface.colorSpace else None.
Proof.
  induction l as [|f l IH]; cbn; [reflexivity|].
  destruct (Z.eqb_spec (Surface.sf_colorSpace f) Surface.colorSpace) as [E|E]; cbn.
  - rewrite E. reflexivity.
  - exact IH.
Qed.

Lemma getSurfaceFormat_outer_existsb (f0 : Surface.VkSurfaceFormatKHR) rest l outFormat :
  Surface.getSurfaceFormat_outer (f0 :: rest) l outFormat =
    Some (true,
      if existsb (fun f => Surface.sf_format f =? Surface.surfaceFormat) l
      then Surface.mkSurfaceFormat Surface.surfaceFormat
             (if existsb (fun f => Surface.sf_colorSpace f =? Surface.colorSpace) (f0 :: rest)
              then Surface.colorSpace else Surface.sf_colorSpace f0)
      else f0).
Proof.
  remember (existsb (fun f => Surface.sf_colorSpace f =? Surface.colorSpace) (f0 :: rest)) as b eqn:Eb.
  induction l as [|f l IH]; [reflexivity|].
  cbn [Surface.getSurfaceFormat_outer].
  change (existsb ?p (f :: l)) with (p f || existsb p l). cbv beta.
  destruct (Surface.sf_format f =? Surface.surfaceFormat) eqn:E; cbn [orb].
  - apply Z.eqb_eq in E.
    rewrite getSurfaceFormat_inner_existsb, <- Eb. cbn [Surface.sf_format]. rewrite E.
    destruct b; reflexivity.
  - exact IH.
Qed.

(** X2: [getSurfaceFormat] returns false and leaves [outFormat] alone when a query fails; on an empty list it reads [found_formats[0]] (undefined); a single [VK_FORMAT_UNDEFINED] entry gives the preferred pair; otherwise it takes the preferred format if listed, paired with the preferred colour space if any entry lists it, else with the first entrys colour space, and falls back to the first entry. *)
Theorem getSurfaceFormat_spec (r1 r2 : VkResult)
    (found_formats : list Surface.VkSurfaceFormatKHR) (outFormat : Surface.VkSurfaceFormatKHR) :
  Surface.getSurfaceFormat r1 r2 found_formats outFormat =
    if is_success r1 && is_success r2 then
      match found_formats with
      | [] => None
      | f0 :: rest =>
          Some (true,
            if match rest with [] => true | _ => false end
               && (Surface.sf_format f0 =? Surface.VK_FORMAT_UNDEFINED)
            then Surface.mkSurfaceFormat Surface.surfaceFormat Surface.colorSpace
            else if existsb (fun f => Surface.sf_format f =? Surface.surfaceFormat) (f0 :: rest)
            then Surface.mkSurfaceFormat Surface.surfaceFormat
                   (if existsb (fun f => Surface.sf_colorSpace f =? Surface.colorSpace) (f0 :: rest)
                    then Surface.colorSpace else Surface.sf_colorSpace f0)
            else f0)
      end
    else Some (false, outFormat).
Proof.
  unfold Surface.getSurfaceFormat.
  destruct (is_success r1), (is_success r2); cbn [negb andb]; try reflexivity.
  destruct found_formats as [|f0 rest]; [reflexivity|].
  destruct rest as [|f1 rest]; cbn [andb].
  - destruct (Surface.sf_format f0 =? Surface.VK_FORMAT_UNDEFINED); [reflexivity|].
    apply getSurfaceFormat_outer_existsb.
  - apply getSurfaceFormat_outer_existsb.
Qed.

Lemma getSurfaceFormat_choice_witness :
  let found_formats :=
    [Surface.mkSurfaceFormat Surface.VK_FORMAT_B8G8R8A8_SRGB Surface.VK_COLOR_SPACE_DISPLAY_P3_NONLINEAR_EXT;
     Surface.mkSurfaceFormat Surface.VK_FORMAT_B8G8R8A8_UNORM Surface.VK_COLOR_SPACE_SRGB_NONLINEAR_KHR] in
  Surface.getSurfaceFormat VK_SUCCESS VK_SUCCESS found_formats (Surface.mkSurfaceFormat 0 0) =
    Some (true, Surface.mkSurfaceFormat Surface.surfaceFormat Surface.colorSpace).
Proof. intros ff. subst ff. rewrite getSurfaceFormat_spec. reflexivity. Defined.

Lemma getPresentationMode_loop_In (availableModes : list Z) (ioMode : Z) :
  Surface.getPresentationMode_loop availableModes ioMode = true <-> In ioMode availableModes.
Proof.
  induction availableModes as [|m l IH]; cbn; [split; [discriminate|contradiction]|].
  destruct (Z.eqb_spec m ioMode) as [->|E].
  - split; [left; reflexivity|reflexivity].
  - rewrite IH. split; [right; assumption|intros [H|H]; [contradiction|assumption]].
Qed.

(** X3: [getPresentationMode] keeps [ioMode] when the device lists it and replaces it by [VK_PRESENT_MODE_FIFO_KHR] otherwise; it returns false and leaves [ioMode] unchanged when a query fails. *)
Theorem getPresentationMode_keeps_or_fifo (r1 r2 : VkResult) (availableModes : list Z) (ioMode : Z) :
  Surface.getPresentationMode r1 r2 availableModes ioMode =
    if is_success r1 && is_success r2 then
      (true, if in_dec Z.eq_dec ioMode availableModes then ioMode else Surface.VK_PRESENT_MODE_FIFO_KHR)
    else (false, ioMode).
Proof.
  unfold Surface.getPresentationMode.
  destruct (is_success r1), (is_success r2); cbn [negb andb]; try reflexivity.
  destruct (in_dec Z.eq_dec ioMode availableModes) as [H|H].
  - apply getPresentationMode_loop_In in H. rewrite H. reflexivity.
  - destruct (Surface.getPresentationMode_loop availableModes ioMode) eqn:E; [|reflexivity].
    apply getPresentationMode_loop_In in E. contradiction.
Qed.

(** X4: [getImageUsage] always sets [foundUsages] to [VK_IMAGE_USAGE_COLOR_ATTACHMENT_BIT] and returns whether bit 4 of [supportedUsageFlags] is set. *)
Theorem getImageUsage_colour_attachment (supportedUsageFlags : Z) :
  Surface.getImageUsage supportedUsageFlags =
    (Z.testbit supportedUsageFlags 4, Surface.VK_IMAGE_USAGE_COLOR_ATTACHMENT_BIT).
Proof.
  unfold Surface.getImageUsage, Surface.desiredImageUsage, Surface.VK_IMAGE_USAGE_COLOR_ATTACHMENT_BIT.
  cbn [nth Surface.getImageUsage_loop].
  replace (Z.land 16 supportedUsageFlags =? 16) with (Z.testbit supportedUsageFlags 4).
  - destruct (Z.testbit supportedUsageFlags 4); reflexivity.
  - change 16 with (2 ^ 4). rewrite Z.land_comm.
    destruct (Z.testbit supportedUsageFlags 4) eqn:E; symmetry.
    + apply Z.eqb_eq. apply Z.bits_inj'. intros m Hm.
      rewrite Z.land_spec, Z.pow2_bits_eqb by lia.
      destruct (Z.eqb_spec 4 m) as [<-|]; [rewrite E; reflexivity|apply andb_false_r].
    + apply Z.eqb_neq. intros H0.
      assert (Z.testbit (Z.land supportedUsageFlags (2 ^ 4)) 4 = true) as H1
        by (rewrite H0; reflexivity).
      rewrite Z.land_spec, E in H1. discriminate.
Qed.

Lemma filter_eqb_repeat (x : string) (l : list string) :
  filter (fun e => String.eqb e x) l = repeat x (count_occ string_dec l x).
Proof.
  induction l as [|a l IH]; cbn; [reflexivity|].
  destruct (string_dec a x) as [->|E].
  - rewrite String.eqb_refl. cbn. rewrite IH. reflexivity.
  - apply String.eqb_neq in E. rewrite E. exact IH.
Qed.

Lemma set_find_single (x name : string) : Devices.set_find [x] name = String.eqb name x.
Proof. unfold Devices.set_find. cbn. apply orb_false_r. Qed.

Lemma getAvailableVulkanLayers_loop_filter (names outLayers : list string) :
  Devices.getAvailableVulkanLayers_loop names outLayers =
    outLayers ++ filter (fun n => String.eqb n "VK_LAYER_KHRONOS_validation") names.
Proof.
  revert outLayers. induction names as [|n names IH]; intros outLayers;
    cbn [Devices.getAvailableVulkanLayers_loop filter].
  - rewrite app_nil_r. reflexivity.
  - rewrite IH. unfold Devices.requestedLayers. rewrite set_find_single.
    destruct (String.eqb n _); [rewrite <- app_assoc|]; reflexivity.
Qed.

Lemma count_occ_NoDup_le_1 (x : string) (l : list string) :
  NoDup l -> (count_occ string_dec l x <= 1)%nat.
Proof.
  intros Hnd. destruct (count_occ string_dec l x) as [|[|c]] eqn:E; try lia.
  exfalso. induction Hnd as [|a l Hna Hnd IH]; cbn in E; [discriminate|].
  destruct (string_dec a x) as [->|Hne].
  - injection E as E. apply Hna. apply (count_occ_In string_dec). lia.
  - apply IH. exact E.
Qed.

(** X5: On success [getAvailableVulkanLayers] clears [outLayers] and fills it with the instance layers named [VK_LAYER_KHRONOS_validation], in the order listed; on a failed query it returns false and leaves [outLayers] unchanged. *)
Theorem getAvailableVulkanLayers_filters (r1 r2 : VkResult) (instance_layer_names outLayers : list string) :
  Devices.getAvailableVulkanLayers r1 r2 instance_layer_names outLayers =
    if is_success r1 && is_success r2
    then (true, filter (fun n => String.eqb n "VK_LAYER_KHRONOS_validation") instance_layer_names)
    else (false, outLayers).
Proof.
  unfold Devices.getAvailableVulkanLayers.
  destruct (is_success r1), (is_success r2); cbn [negb andb]; try reflexivity.
  rewrite getAvailableVulkanLayers_loop_filter. reflexivity.
Qed.

(** X6: When the instance layer names are distinct, [main] always prints the missing-layer warning after a successful [getAvailableVulkanLayers]: at most one layer is found, while [getRequestedLayerNames] has two. *)
Theorem main_layer_warning_always (r1 r2 : VkResult) (instance_layer_names outLayers found_layers : list string) :
  NoDup instance_layer_names ->
  Devices.getAvailableVulkanLayers r1 r2 instance_layer_names outLayers = (true, found_layers) ->
  Devices.layers_warning found_layers = true.
Proof.
  intros Hnd H. unfold Devices.getAvailableVulkanLayers in H.
  destruct (is_success r1), (is_success r2); cbn [negb andb] in H; try discriminate H.
  injection H as <-. rewrite getAvailableVulkanLayers_loop_filter, filter_eqb_repeat. cbn [app].
  unfold Devices.layers_warning. rewrite repeat_length.
  pose proof (count_occ_NoDup_le_1 "VK_LAYER_KHRONOS_validation"%string _ Hnd).
  destruct (count_occ string_dec instance_layer_names "VK_LAYER_KHRONOS_validation"%string) as [|[|]];
    [reflexivity|reflexivity|lia].
Qed.

Lemma main_layer_warning_always_witness :
  let names := ["VK_LAYER_MESA_device_select"; "VK_LAYER_KHRONOS_validation"]%string in
  NoDup names /\
  Devices.getAvailableVulkanLayers VK_SUCCESS VK_SUCCESS names [] = (true, ["VK_LAYER_KHRONOS_validation"%string]) /\
  Devices.layers_warning ["VK_LAYER_KHRONOS_validation"%string] = true.
Proof.
  intros names. subst names.
  assert (Hnd : NoDup ["VK_LAYER_MESA_device_select"; "VK_LAYER_KHRONOS_validation"]%string).
  { constructor; [intros [H|[]]; discriminate H|constructor; [intros []|constructor]]. }
  split; [exact Hnd|]. split; [reflexivity|].
  apply (main_layer_warning_always VK_SUCCESS VK_SUCCESS _ [] _ Hnd). reflexivity.
Defined.

Lemma emplace_back_all_app (ext_names outExtensions : list string) :
  Devices.emplace_back_all ext_names outExtensions = outExtensions ++ ext_names.
Proof.
  revert outExtensions. induction ext_names as [|n l IH]; intros out;
    cbn [Devices.emplace_back_all].
  - rewrite app_nil_r. reflexivity.
  - rewrite IH, <- app_assoc. reflexivity.
Qed.

(** X7: On success [getAvailableVulkanExtensions] appends the SDL extension names and then [VK_EXT_debug_report] to [outExtensions], keeping what was there; on failure it leaves [outExtensions] unchanged. *)
Theorem getAvailableVulkanExtensions_appends (ok1 ok2 : bool) (ext_names outExtensions : list string) :
  Devices.getAvailableVulkanExtensions ok1 ok2 ext_names outExtensions =
    if ok1 && ok2
    then (true, outExtensions ++ ext_names ++ ["VK_EXT_debug_report"%string])
    else (false, outExtensions).
Proof.
  unfold Devices.getAvailableVulkanExtensions.
  destruct ok1, ok2; cbn [negb andb]; try reflexivity.
  rewrite emplace_back_all_app, <- app_assoc. reflexivity.
Qed.

Lemma device_property_names_loop_repeat (device_properties names : list string) :
  Devices.device_property_names_loop device_properties names =
    names ++ repeat "VK_KHR_swapchain"%string
                    (count_occ string_dec device_properties "VK_KHR_swapchain"%string).
Proof.
  rewrite <- filter_eqb_repeat. revert names.
  induction device_properties as [|e l IH]; intros names;
    cbn [Devices.device_property_names_loop filter].
  - rewrite app_nil_r. reflexivity.
  - rewrite IH. unfold Devices.required_extension_names, Devices.VK_KHR_SWAPCHAIN_EXTENSION_NAME.
    rewrite set_find_single.
    destruct (String.eqb e _); [rewrite <- app_assoc|]; reflexivity.
Qed.

(** X8: [createLogicalDevice] calls [vkCreateDevice], with [VK_KHR_swapchain] as the only extension, exactly when both queries succeed and the device lists [VK_KHR_swapchain] exactly once; a device listing it twice is rejected. *)
Theorem createLogicalDevice_needs_swapchain_once (r1 r2 : VkResult) (device_properties : list string)
    (rc : VkResult) :
  Devices.createLogicalDevice r1 r2 device_properties rc =
    if is_success r1 && is_success r2
       && Nat.eqb (count_occ string_dec device_properties "VK_KHR_swapchain"%string) 1
    then (is_success rc, Some ["VK_KHR_swapchain"%string])
    else (false, None).
Proof.
  unfold Devices.createLogicalDevice.
  destruct (is_success r1), (is_success r2); cbn [negb andb]; try reflexivity.
  rewrite device_property_names_loop_repeat. cbn [app].
  unfold Devices.required_extension_names. rewrite repeat_length.
  destruct (count_occ string_dec device_properties "VK_KHR_swapchain"%string) as [|[|]]; reflexivity.
Qed.

Lemma queue_node_loop_found (qs : list Devices.VkQueueFamilyProperties) (k : Z) (i : nat) :
  Devices.graphics_family qs i -> (forall j, (j < i)%nat -> ~ Devices.graphics_family qs j) ->
  Devices.queue_node_loop qs k = k + Z.of_nat i.
Proof.
  revert k i. induction qs as [|q qs IH]; intros k i Hg Hmin.
  - destruct Hg as (q & Hq & _). destruct i; discriminate Hq.
  - cbn [Devices.queue_node_loop].
    destruct ((0 <? Devices.queueCount q) && negb (Z.land (Devices.queueFlags q) Devices.VK_QUEUE_GRAPHICS_BIT =? 0)) eqn:E.
    + destruct i as [|i]; [lia|]. exfalso. apply (Hmin 0%nat); [lia|].
      exists q. apply andb_true_iff in E. destruct E as [E1 E2].
      apply Z.ltb_lt in E1. apply negb_true_iff, Z.eqb_neq in E2. split; [reflexivity|lia].
    + destruct i as [|i].
      * exfalso. destruct Hg as (q' & Hq & Hc & Hf). injection Hq as <-.
        apply Z.ltb_lt in Hc. apply Z.eqb_neq in Hf. rewrite Hc, Hf in E. discriminate E.
      * rewrite (IH (k + 1) i); [lia| |].
        -- destruct Hg as (q' & Hq & Hc). exists q'. split; [exact Hq|exact Hc].
        -- intros j Hj Hgj. apply (Hmin (S j)); [lia|]. exact Hgj.
Qed.

Lemma queue_node_loop_none (qs : list Devices.VkQueueFamilyProperties) (k : Z) :
  (forall i, ~ Devices.graphics_family qs i) -> Devices.queue_node_loop qs k = -1.
Proof.
  revert k. induction qs as [|q qs IH]; intros k Hnone; cbn [Devices.queue_node_loop]; [reflexivity|].
  destruct ((0 <? Devices.queueCount q) && negb (Z.land (Devices.queueFlags q) Devices.VK_QUEUE_GRAPHICS_BIT =? 0)) eqn:E.
  - exfalso. apply (Hnone 0%nat). exists q. apply andb_true_iff in E. destruct E as [E1 E2].
    apply Z.ltb_lt in E1. apply negb_true_iff, Z.eqb_neq in E2. split; [reflexivity|lia].
  - apply IH. intros i Hg. apply (Hnone (S i)). exact Hg.
Qed.

Lemma read_selection_first (c : Z) (pre : list Z) (post : list Devices.cin_extraction) (sel : Z) :
  Forall (fun x => c <= x) pre -> sel < c ->
  Devices.read_selection c (map Devices.Extracted pre ++ Devices.Extracted sel :: post) = Some sel.
Proof.
  intros Hpre Hsel. induction Hpre as [|x pre Hx Hpre IH]; cbn [map app Devices.read_selection].
  - destruct (Z.leb_spec c sel); [lia|reflexivity].
  - destruct (Z.leb_spec c x); [exact IH|lia].
Qed.

(** X9: For the device the user selects (the first value read below the device count, every read before it succeeding with a value at or above the count, or device 0 when there is only one), [selectGPU] returns that device and the index of its first queue family with a nonzero queue count and the graphics bit; it returns false, leaving its outputs unchanged, when the device has no such family. *)
Theorem selectGPU_first_graphics_family (physical_devices : list (list Devices.VkQueueFamilyProperties))
    (input : list Devices.cin_extraction) (outDevice : nat) (outQueueFamilyIndex : Z) (selection_id : nat) :
  (length physical_devices = 1%nat /\ selection_id = 0%nat \/
   (1 < length physical_devices)%nat /\ (selection_id < length physical_devices)%nat /\
   exists pre post,
     input = map Devices.Extracted pre ++ Devices.Extracted (Z.of_nat selection_id) :: post /\
     Forall (fun x => Z.of_nat (length physical_devices) <= x < u32_modulus) pre) ->
  (forall i, Devices.graphics_family (nth selection_id physical_devices []) i ->
     (forall j, (j < i)%nat -> ~ Devices.graphics_family (nth selection_id physical_devices []) j) ->
     Devices.selectGPU physical_devices input outDevice outQueueFamilyIndex =
       Some (true, selection_id, Z.of_nat i)) /\
  ((forall i, ~ Devices.graphics_family (nth selection_id physical_devices []) i) ->
     Devices.selectGPU physical_devices input outDevice outQueueFamilyIndex =
       Some (false, outDevice, outQueueFamilyIndex)).
Proof.
  intros Hsel.
  assert (Hread : (if 1 <? Z.of_nat (length physical_devices)
                   then Devices.read_selection (Z.of_nat (length physical_devices)) input
                   else Some 0) = Some (Z.of_nat selection_id)).
  { destruct Hsel as [[Hl ->]|(Hl & Hs & pre & post & -> & Hpre)].
    - rewrite Hl. reflexivity.
    - destruct (Z.ltb_spec 1 (Z.of_nat (length physical_devices))); [|lia].
      apply read_selection_first; [|lia].
      eapply Forall_impl; [|exact Hpre]. cbn. lia. }
  assert (Hne : (Z.of_nat (length physical_devices) =? 0) = false).
  { apply Z.eqb_neq. destruct Hsel as [[Hl _]|(Hl & _)]; lia. }
  unfold Devices.selectGPU. rewrite Hne, Hread, Nat2Z.id. split.
  - intros i Hg Hmin.
    assert (Hlen : (Z.of_nat (length (nth selection_id physical_devices [])) =? 0) = false).
    { apply Z.eqb_neq. destruct Hg as (q & Hq & _).
      assert (Hs : nth_error (nth selection_id physical_devices []) i <> None) by congruence.
      apply nth_error_Some in Hs. intros H0. lia. }
    rewrite Hlen, (queue_node_loop_found _ 0 i Hg Hmin).
    destruct (Z.eqb_spec (0 + Z.of_nat i) (-1)); [lia|]. reflexivity.
  - intros Hnone. rewrite (queue_node_loop_none _ 0 Hnone).
    destruct (Z.of_nat (length (nth selection_id physical_devices [])) =? 0); reflexivity.
Qed.

Lemma selectGPU_first_graphics_family_witness :
  let physical_devices :=
    [[Devices.mkQueueFamily 1 1];
     [Devices.mkQueueFamily 2 1; Devices.mkQueueFamily 3 0; Devices.mkQueueFamily 7 4]] in
  Devices.selectGPU physical_devices
    [Devices.Extracted 5; Devices.Extracted 2; Devices.Extracted 1] 0 (-1) = Some (true, 1%nat, 2).
Proof.
  intros physical_devices. subst physical_devices.
  refine (proj1 (selectGPU_first_graphics_family _
            [Devices.Extracted 5; Devices.Extracted 2; Devices.Extracted 1] 0 (-1) 1 _) 2%nat _ _).
  - right. split; [cbn; lia|]. split; [cbn; lia|]. exists [5; 2], []. split; [reflexivity|].
    unfold u32_modulus. constructor; [cbn; lia|constructor; [cbn; lia|constructor]].
  - exists (Devices.mkQueueFamily 7 4). split; [reflexivity|cbn; split; [lia|discriminate]].
  - intros j Hj (q & Hq & Hc & Hf). destruct j as [|[|]]; [| |lia]; cbn in Hq; injection Hq as <-; cbn in *.
    + apply Hf. reflexivity.
    + lia.
Defined.





Lemma layout_mismatches_app (ls : list Z) (c1 c2 : list Texture.ImageCmd) :
  Texture.layout_mismatches ls (c1 ++ c2) =
    Texture.layout_mismatches ls c1 ++ Texture.layout_mismatches (Texture.final_layouts ls c1) c2.
Proof.
  revert ls. induction c1 as [|c c1 IH]; intros ls; [reflexivity|].
  cbn [app Texture.layout_mismatches]. rewrite IH, app_assoc. reflexivity.
Qed.

Lemma final_layouts_app (ls : list Z) (c1 c2 : list Texture.ImageCmd) :
  Texture.final_layouts ls (c1 ++ c2) = Texture.final_layouts (Texture.final_layouts ls c1) c2.
Proof. unfold Texture.final_layouts. apply fold_left_app. Qed.

Lemma blits_app (c1 c2 : list Texture.ImageCmd) :
  Texture.blits (c1 ++ c2) = Texture.blits c1 ++ Texture.blits c2.
Proof.
  induction c1 as [|c c1 IH]; [reflexivity|].
  destruct c; cbn [app Texture.blits]; rewrite IH; reflexivity.
Qed.

Lemma layout_of_nat (ls : list Z) (m : nat) :
  Texture.layout_of ls (Z.of_nat m) = nth_error ls m.
Proof.
  unfold Texture.layout_of. destruct (Z.ltb_spec (Z.of_nat m) 0); [lia|]. rewrite Nat2Z.id. reflexivity.
Qed.

Lemma set_layout_nat (ls : list Z) (m : nat) (v : Z) :
  Texture.set_layout ls (Z.of_nat m) v = Texture.replace_nth ls m v.
Proof.
  unfold Texture.set_layout. destruct (Z.ltb_spec (Z.of_nat m) 0); [lia|]. rewrite Nat2Z.id. reflexivity.
Qed.

Lemma nth_error_repeat_app (a : Z) (j m : nat) (l : list Z) :
  nth_error (repeat a j ++ l) (j + m) = nth_error l m.
Proof. induction j as [|j IH]; [reflexivity|]. exact IH. Qed.

Lemma nth_error_repeat_app_0 (a : Z) (j : nat) (l : list Z) :
  nth_error (repeat a j ++ l) j = nth_error l 0.
Proof. rewrite <- (nth_error_repeat_app a j 0 l), Nat.add_0_r. reflexivity. Qed.

Lemma replace_nth_repeat_app (a b v : Z) (j : nat) (l : list Z) :
  Texture.replace_nth (repeat a j ++ b :: l) j v = repeat a j ++ v :: l.
Proof. induction j as [|j IH]; [reflexivity|]. cbn. rewrite IH. reflexivity. Qed.

Lemma repeat_snoc_app (a : Z) (j : nat) (l : list Z) :
  repeat a j ++ a :: l = repeat a (S j) ++ l.
Proof. induction j as [|j IH]; [reflexivity|]. cbn. rewrite IH. reflexivity. Qed.

Lemma apply_single_barrier (ls : list Z) (s d : Z) (b : Texture.VkImageMemoryBarrier) (m : nat) :
  Texture.baseMipLevel b = Z.of_nat m -> Texture.levelCount b = 1 ->
  Texture.apply_cmd ls (Texture.CmdImageBarrier s d b) =
    Texture.replace_nth ls m (Texture.newLayout b).
Proof.
  intros Hb Hc. unfold Texture.apply_cmd, Texture.barrier_levels. rewrite Hb, Hc.
  change (Z.to_nat 1) with 1%nat.
  cbn [Texture.levels_from fold_left].
  apply set_layout_nat.
Qed.

Lemma cmd_ok_single_barrier (ls : list Z) (s d : Z) (b : Texture.VkImageMemoryBarrier) (m : nat) :
  Texture.baseMipLevel b = Z.of_nat m -> Texture.levelCount b = 1 ->
  Texture.oldLayout b <> 0 ->
  Texture.cmd_ok ls (Texture.CmdImageBarrier s d b) =
    match nth_error ls m with Some l => l =? Texture.oldLayout b | None => false end.
Proof.
  intros Hb Hc Ho. unfold Texture.cmd_ok, Texture.barrier_levels. rewrite Hb, Hc.
  change (Z.to_nat 1) with 1%nat.
  cbn [Texture.levels_from forallb].
  destruct (Z.eqb_spec (Texture.oldLayout b) Texture.VK_IMAGE_LAYOUT_UNDEFINED) as [E|_];
    [unfold Texture.VK_IMAGE_LAYOUT_UNDEFINED in E; contradiction|].
  unfold Texture.layout_is. rewrite layout_of_nat, andb_true_r. reflexivity.
Qed.

Lemma cmd_ok_blit (ls : list Z) (sl se dl de : Z) (sx dx : Z * Z) (sm dm : nat) :
  se = Z.of_nat sm -> de = Z.of_nat dm ->
  Texture.cmd_ok ls (Texture.CmdBlitImage sl se sx dl de dx) =
    match nth_error ls sm with Some l => l =? sl | None => false end &&
    match nth_error ls dm with Some l => l =? dl | None => false end.
Proof.
  intros -> ->. unfold Texture.cmd_ok, Texture.layout_is. rewrite !layout_of_nat. reflexivity.
Qed.

Lemma generateMipmaps_loop_undefined (j k : nat) (w h : Z) :
  let ls := repeat 5 j ++ 0 :: repeat 0 k in
  let cmds := Texture.generateMipmaps_loop (Z.of_nat (S j)) k w h in
  Texture.final_layouts ls cmds = repeat 5 (j + k) ++ [0] /\
  length (Texture.layout_mismatches ls cmds) = (2 * k)%nat /\
  Texture.blits (Texture.layout_mismatches ls cmds) = Texture.blits cmds.
Proof.
  revert j w h. induction k as [|k IH]; intros j w h ls cmds; subst ls cmds.
  - cbn. rewrite Nat.add_0_r. auto.
  - cbn [Texture.generateMipmaps_loop].
    replace (Z.of_nat (S j) - 1) with (Z.of_nat j) by lia.
    replace (Z.of_nat (S j) + 1) with (Z.of_nat (S (S j))) by lia.
    set (w' := if 1 <? w then Z.quot w 2 else w).
    set (h' := if 1 <? h then Z.quot h 2 else h).
    set (rest := Texture.generateMipmaps_loop (Z.of_nat (S (S j))) k w' h').
    set (b1 := Texture.writeToReadBarrier (Z.of_nat j)).
    set (b2 := Texture.readToSampleBarrier (Z.of_nat j)).
    cbn [repeat].
    assert (E1 : Texture.cmd_ok (repeat 5 j ++ 0 :: 0 :: repeat 0 k)
                   (Texture.CmdImageBarrier Texture.VK_PIPELINE_STAGE_TRANSFER_BIT
                      Texture.VK_PIPELINE_STAGE_TRANSFER_BIT b1) = false).
    { rewrite (cmd_ok_single_barrier _ _ _ b1 j eq_refl eq_refl); [|discriminate].
      rewrite nth_error_repeat_app_0. reflexivity. }
    assert (A1 : Texture.apply_cmd (repeat 5 j ++ 0 :: 0 :: repeat 0 k)
                   (Texture.CmdImageBarrier Texture.VK_PIPELINE_STAGE_TRANSFER_BIT
                      Texture.VK_PIPELINE_STAGE_TRANSFER_BIT b1) = repeat 5 j ++ 6 :: 0 :: repeat 0 k).
    { rewrite (apply_single_barrier _ _ _ b1 j eq_refl eq_refl). apply replace_nth_repeat_app. }
    assert (E2 : Texture.cmd_ok (repeat 5 j ++ 6 :: 0 :: repeat 0 k)
                   (Texture.CmdBlitImage Texture.VK_IMAGE_LAYOUT_TRANSFER_SRC_OPTIMAL (Z.of_nat j) (w, h)
                      Texture.VK_IMAGE_LAYOUT_TRANSFER_DST_OPTIMAL (Z.of_nat (S j))
                      (if 1 <? w then Z.quot w 2 else 1, if 1 <? h then Z.quot h 2 else 1)) = false).
    { rewrite (cmd_ok_blit _ _ _ _ _ _ _ j (j + 1) eq_refl); [|lia].
      rewrite nth_error_repeat_app, nth_error_repeat_app_0.
      reflexivity. }
    assert (E3 : Texture.cmd_ok (repeat 5 j ++ 6 :: 0 :: repeat 0 k)
                   (Texture.CmdImageBarrier Texture.VK_PIPELINE_STAGE_TRANSFER_BIT
                      Texture.VK_PIPELINE_STAGE_FRAGMENT_SHADER_BIT b2) = true).
    { rewrite (cmd_ok_single_barrier _ _ _ b2 j eq_refl eq_refl); [|discriminate].
      rewrite nth_error_repeat_app_0. reflexivity. }
    assert (A3 : Texture.apply_cmd (repeat 5 j ++ 6 :: 0 :: repeat 0 k)
                   (Texture.CmdImageBarrier Texture.VK_PIPELINE_STAGE_TRANSFER_BIT
                      Texture.VK_PIPELINE_STAGE_FRAGMENT_SHADER_BIT b2) = repeat 5 (S j) ++ 0 :: repeat 0 k).
    { rewrite (apply_single_barrier _ _ _ b2 j eq_refl eq_refl).
      rewrite replace_nth_repeat_app. apply repeat_snoc_app. }
    cbn [Texture.layout_mismatches]. unfold Texture.final_layouts. cbn [fold_left].
    rewrite E1, A1, E2.
    match goal with |- context [Texture.apply_cmd ?l (Texture.CmdBlitImage ?a ?b ?c ?d ?e ?f)] =>
      change (Texture.apply_cmd l (Texture.CmdBlitImage a b c d e f)) with l end.
    rewrite E3, A3.
    destruct (IH (S j) w' h') as (F & L & B).
    unfold Texture.final_layouts in F. fold rest in F, L, B. rewrite F.
    cbn [app length Texture.blits]. rewrite L, B. split; [|split].
    + f_equal. f_equal. lia.
    + lia.
    + reflexivity.
Qed.

Lemma generateMipmaps_unfold (w h : Z) (k : nat) :
  Z.of_nat (S k) <= u32_modulus ->
  Texture.generateMipmaps w h (Z.of_nat (S k)) =
    Texture.generateMipmaps_loop 1 k w h ++
    [Texture.CmdImageBarrier 4096 128 (Texture.mkBarrier 7 5 4096 32 1 (Z.of_nat k) 1)].
Proof.
  intros Hu. unfold Texture.generateMipmaps.
  replace (Z.of_nat (S k) - 1) with (Z.of_nat k) by lia. rewrite Nat2Z.id.
  unfold u32. rewrite Z.mod_small by lia. reflexivity.
Qed.

Lemma createImageFromTGAFile_trace (format w h : Z) (n : nat) :
  (1 <= n)%nat -> Z.of_nat n <= u32_modulus ->
  exists cmds, Texture.createImageFromTGAFile_cmds format w h (Z.of_nat n) = inr cmds /\
    Texture.final_layouts (repeat 0 n) cmds = repeat 5 n /\
    length (Texture.layout_mismatches (repeat 0 n) cmds) = (2 * n - 1)%nat /\
    Texture.blits (Texture.layout_mismatches (repeat 0 n) cmds) = Texture.blits cmds.
Proof.
  intros Hn Hu. destruct n as [|k]; [lia|].
  unfold Texture.createImageFromTGAFile_cmds.
  change (Texture.transitionImageLayout format 1 Texture.VK_IMAGE_LAYOUT_UNDEFINED
            Texture.VK_IMAGE_LAYOUT_TRANSFER_DST_OPTIMAL)
    with (@inr string _ (Texture.CmdImageBarrier 1 4096 (Texture.mkBarrier 0 7 0 4096 1 0 1))).
  change (Texture.transitionImageLayout format 1 Texture.VK_IMAGE_LAYOUT_TRANSFER_DST_OPTIMAL
            Texture.VK_IMAGE_LAYOUT_SHADER_READ_ONLY_OPTIMAL) with (@inr string _ (Texture.CmdImageBarrier 4096 128 (Texture.mkBarrier 7 5 4096 32 1 0 1))).
  eexists; split; [reflexivity|].
  rewrite (generateMipmaps_unfold w h k Hu).
  destruct k as [|k].
  - cbn. auto.
  - cbn [Texture.generateMipmaps_loop].
    remember (Texture.generateMipmaps_loop _ k _ _) as rest eqn:Hrest.
    rewrite <- app_assoc. cbn [app].
    unfold Texture.final_layouts. cbn [Texture.layout_mismatches fold_left].
    match goal with |- context [Texture.layout_mismatches ?st (rest ++ _)] =>
      replace st with (repeat 5 1 ++ 0 :: repeat 0 k)
        by (cbn; change (PosDef.Pos.to_nat 1) with 1%nat; reflexivity) end.
    match goal with |- context [fold_left Texture.apply_cmd (rest ++ _) ?st] =>
      replace st with (repeat 5 1 ++ 0 :: repeat 0 k)
        by (cbn; change (PosDef.Pos.to_nat 1) with 1%nat; reflexivity) end.
    rewrite layout_mismatches_app, fold_left_app, !blits_app.
    change (1 + 1) with (Z.of_nat (S 1)) in Hrest.
    destruct (generateMipmaps_loop_undefined 1 k (if 1 <? w then w ÷ 2 else w)
                (if 1 <? h then h ÷ 2 else h)) as (F & L & B).
    rewrite <- Hrest in F, L, B. unfold Texture.final_layouts in F. change (1 + k)%nat with (S k) in F.
    unfold Texture.final_layouts. rewrite F, B.
    set (fin := Texture.CmdImageBarrier 4096 128 (Texture.mkBarrier 7 5 4096 32 1 (Z.of_nat (S k)) 1)).
    assert (E1 : Texture.cmd_ok (repeat 5 (S k) ++ [0]) fin = false).
    { unfold fin. rewrite (cmd_ok_single_barrier _ _ _ (Texture.mkBarrier 7 5 4096 32 1 (Z.of_nat (S k)) 1) (S k) eq_refl eq_refl); [|discriminate].
      rewrite nth_error_repeat_app_0. reflexivity. }
    assert (A1 : Texture.apply_cmd (repeat 5 (S k) ++ [0]) fin = repeat 5 (S (S k))).
    { unfold fin. rewrite (apply_single_barrier _ _ _ (Texture.mkBarrier 7 5 4096 32 1 (Z.of_nat (S k)) 1) (S k) eq_refl eq_refl).
      cbn [Texture.newLayout]. rewrite replace_nth_repeat_app, repeat_snoc_app, app_nil_r. reflexivity. }
    cbn [Texture.layout_mismatches fold_left]. rewrite E1, A1.
    rewrite !length_app, L.
    cbn. change (PosDef.Pos.to_nat 1) with 1%nat. cbn.
    unfold Texture.layout_is, Texture.layout_of. cbn. change (PosDef.Pos.to_nat 1) with 1%nat. cbn.
    rewrite blits_app. cbn. rewrite !app_nil_r. split; [reflexivity|split; [lia|reflexivity]].
Qed.

Lemma blit_dst_layouts_app (ls : list Z) (c1 c2 : list Texture.ImageCmd) :
  Texture.blit_dst_layouts ls (c1 ++ c2) =
    Texture.blit_dst_layouts ls c1 ++ Texture.blit_dst_layouts (Texture.final_layouts ls c1) c2.
Proof.
  revert ls. induction c1 as [|c c1 IH]; intros ls; [reflexivity|].
  cbn [app Texture.blit_dst_layouts]. rewrite IH, app_assoc. reflexivity.
Qed.

Lemma generateMipmaps_loop_blit_dst (j k : nat) (w h : Z) :
  Texture.blit_dst_layouts (repeat 5 j ++ 0 :: repeat 0 k)
    (Texture.generateMipmaps_loop (Z.of_nat (S j)) k w h) = repeat (Some 0) k.
Proof.
  revert j w h. induction k as [|k IH]; intros j w h; [reflexivity|].
  cbn [Texture.generateMipmaps_loop].
  replace (Z.of_nat (S j) - 1) with (Z.of_nat j) by lia.
  replace (Z.of_nat (S j) + 1) with (Z.of_nat (S (S j))) by lia.
  set (b1 := Texture.writeToReadBarrier (Z.of_nat j)).
  set (b2 := Texture.readToSampleBarrier (Z.of_nat j)).
  cbn [repeat].
  assert (A1 : Texture.apply_cmd (repeat 5 j ++ 0 :: 0 :: repeat 0 k)
                 (Texture.CmdImageBarrier Texture.VK_PIPELINE_STAGE_TRANSFER_BIT
                    Texture.VK_PIPELINE_STAGE_TRANSFER_BIT b1) = repeat 5 j ++ 6 :: 0 :: repeat 0 k).
  { rewrite (apply_single_barrier _ _ _ b1 j eq_refl eq_refl). apply replace_nth_repeat_app. }
  assert (A3 : Texture.apply_cmd (repeat 5 j ++ 6 :: 0 :: repeat 0 k)
                 (Texture.CmdImageBarrier Texture.VK_PIPELINE_STAGE_TRANSFER_BIT
                    Texture.VK_PIPELINE_STAGE_FRAGMENT_SHADER_BIT b2) = repeat 5 (S j) ++ 0 :: repeat 0 k).
  { rewrite (apply_single_barrier _ _ _ b2 j eq_refl eq_refl).
    rewrite replace_nth_repeat_app. apply repeat_snoc_app. }
  cbn [Texture.blit_dst_layouts app]. rewrite A1.
  match goal with |- context [Texture.apply_cmd ?l (Texture.CmdBlitImage ?a ?b ?c ?d ?e ?f)] =>
    change (Texture.apply_cmd l (Texture.CmdBlitImage a b c d e f)) with l end.
  rewrite A3, IH.
  replace (Z.of_nat (S j)) with (Z.of_nat (j + 1)) by lia.
  rewrite layout_of_nat, nth_error_repeat_app. reflexivity.
Qed.

Lemma createImageFromTGAFile_last (format w h : Z) (n : nat) :
  (1 <= n)%nat -> Z.of_nat n <= u32_modulus ->
  exists pre,
    Texture.createImageFromTGAFile_cmds format w h (Z.of_nat n) =
      inr (pre ++ [Texture.CmdImageBarrier 4096 128 (Texture.mkBarrier 7 5 4096 32 1 0 1)]) /\
    Texture.final_layouts (repeat 0 n) pre = repeat 5 n /\
    Texture.blit_dst_layouts (repeat 0 n) pre = repeat (Some 0) (n - 1).
Proof.
  intros Hn Hu. destruct n as [|k]; [lia|].
  unfold Texture.createImageFromTGAFile_cmds.
  change (Texture.transitionImageLayout format 1 Texture.VK_IMAGE_LAYOUT_UNDEFINED
            Texture.VK_IMAGE_LAYOUT_TRANSFER_DST_OPTIMAL)
    with (@inr string _ (Texture.CmdImageBarrier 1 4096 (Texture.mkBarrier 0 7 0 4096 1 0 1))).
  change (Texture.transitionImageLayout format 1 Texture.VK_IMAGE_LAYOUT_TRANSFER_DST_OPTIMAL
            Texture.VK_IMAGE_LAYOUT_SHADER_READ_ONLY_OPTIMAL) with (@inr string _ (Texture.CmdImageBarrier 4096 128 (Texture.mkBarrier 7 5 4096 32 1 0 1))).
  exists (Texture.CmdImageBarrier 1 4096 (Texture.mkBarrier 0 7 0 4096 1 0 1) ::
          Texture.copyBufferToImage w h :: Texture.generateMipmaps w h (Z.of_nat (S k))).
  split; [reflexivity|].
  rewrite (generateMipmaps_unfold w h k Hu).
  destruct k as [|k].
  - cbn. change (PosDef.Pos.to_nat 1) with 1%nat. cbn. auto.
  - cbn [Texture.generateMipmaps_loop].
    remember (Texture.generateMipmaps_loop _ k _ _) as rest eqn:Hrest.
    unfold Texture.final_layouts. cbn [Texture.blit_dst_layouts fold_left app].
    match goal with |- context [Texture.blit_dst_layouts ?st (rest ++ _)] =>
      replace st with (repeat 5 1 ++ 0 :: repeat 0 k)
        by (cbn; change (PosDef.Pos.to_nat 1) with 1%nat; reflexivity) end.
    match goal with |- context [fold_left Texture.apply_cmd (rest ++ _) ?st] =>
      replace st with (repeat 5 1 ++ 0 :: repeat 0 k)
        by (cbn; change (PosDef.Pos.to_nat 1) with 1%nat; reflexivity) end.
    rewrite blit_dst_layouts_app, fold_left_app.
    change (1 + 1) with (Z.of_nat (S 1)) in Hrest.
    destruct (generateMipmaps_loop_undefined 1 k (if 1 <? w then w ÷ 2 else w)
                (if 1 <? h then h ÷ 2 else h)) as (F & _ & _).
    pose proof (generateMipmaps_loop_blit_dst 1 k (if 1 <? w then w ÷ 2 else w)
                  (if 1 <? h then h ÷ 2 else h)) as D.
    rewrite <- Hrest in F, D. unfold Texture.final_layouts in F. change (1 + k)%nat with (S k) in F.
    unfold Texture.final_layouts. rewrite F, D.
    set (fin := Texture.CmdImageBarrier 4096 128 (Texture.mkBarrier 7 5 4096 32 1 (Z.of_nat (S k)) 1)).
    assert (A1 : Texture.apply_cmd (repeat 5 (S k) ++ [0]) fin = repeat 5 (S (S k))).
    { unfold fin. rewrite (apply_single_barrier _ _ _ (Texture.mkBarrier 7 5 4096 32 1 (Z.of_nat (S k)) 1) (S k) eq_refl eq_refl).
      cbn [Texture.newLayout]. rewrite replace_nth_repeat_app, repeat_snoc_app, app_nil_r. reflexivity. }
    cbn [Texture.blit_dst_layouts fold_left]. rewrite A1.
    cbn. change (PosDef.Pos.to_nat 1) with 1%nat. cbn.
    unfold Texture.layout_of. cbn. change (PosDef.Pos.to_nat 1) with 1%nat. cbn.
    split; [reflexivity|].
    rewrite !app_nil_r. reflexivity.
Qed.

(** X11: Tracking each mip levels layout through the commands [createImageFromTGAFile] records, every one of its [mipLevels] levels ends in [VK_IMAGE_LAYOUT_SHADER_READ_ONLY_OPTIMAL]. *)
Theorem createImageFromTGAFile_levels_shader_read (format width height : Z) (mipLevels : nat) :
  (1 <= mipLevels)%nat -> Z.of_nat mipLevels <= u32_modulus ->
  exists cmds,
    Texture.createImageFromTGAFile_cmds format width height (Z.of_nat mipLevels) = inr cmds /\
    Texture.final_layouts (repeat Texture.VK_IMAGE_LAYOUT_UNDEFINED mipLevels) cmds =
      repeat Texture.VK_IMAGE_LAYOUT_SHADER_READ_ONLY_OPTIMAL mipLevels.
Proof.
  intros Hn Hu. destruct (createImageFromTGAFile_trace format width height mipLevels Hn Hu)
    as (cmds & E & F & _). exists cmds. split; [exact E|exact F].
Qed.

Lemma createImageFromTGAFile_levels_shader_read_witness :
  exists cmds,
    Texture.createImageFromTGAFile_cmds Texture.VK_FORMAT_B8G8R8A8_SRGB 16 16 (Z.of_nat 5) = inr cmds /\
    Texture.final_layouts (repeat Texture.VK_IMAGE_LAYOUT_UNDEFINED 5) cmds =
      repeat Texture.VK_IMAGE_LAYOUT_SHADER_READ_ONLY_OPTIMAL 5.
Proof.
  apply (createImageFromTGAFile_levels_shader_read Texture.VK_FORMAT_B8G8R8A8_SRGB 16 16 5).
  - lia.
  - apply Z.leb_le. reflexivity.
Defined.

(** X12: Of the commands [createImageFromTGAFile] records for [mipLevels] levels, exactly [2 * mipLevels - 1] name a layout the level is not in, and every blit is among them. Each of the [mipLevels - 1] blits writes a level that is still [VK_IMAGE_LAYOUT_UNDEFINED] when it executes, although the blit names [VK_IMAGE_LAYOUT_TRANSFER_DST_OPTIMAL]. The last command is the transition of level 0 from [VK_IMAGE_LAYOUT_TRANSFER_DST_OPTIMAL] to [VK_IMAGE_LAYOUT_SHADER_READ_ONLY_OPTIMAL], recorded when level 0 is already [VK_IMAGE_LAYOUT_SHADER_READ_ONLY_OPTIMAL]. *)
Theorem createImageFromTGAFile_layout_mismatches (format width height : Z) (mipLevels : nat) :
  (1 <= mipLevels)%nat -> Z.of_nat mipLevels <= u32_modulus ->
  exists cmds,
    Texture.createImageFromTGAFile_cmds format width height (Z.of_nat mipLevels) = inr cmds /\
    length (Texture.layout_mismatches (repeat Texture.VK_IMAGE_LAYOUT_UNDEFINED mipLevels) cmds) =
      (2 * mipLevels - 1)%nat /\
    Texture.blits (Texture.layout_mismatches (repeat Texture.VK_IMAGE_LAYOUT_UNDEFINED mipLevels) cmds) =
      Texture.blits cmds /\
    Texture.blit_dst_layouts (repeat Texture.VK_IMAGE_LAYOUT_UNDEFINED mipLevels) cmds =
      repeat (Some Texture.VK_IMAGE_LAYOUT_UNDEFINED) (mipLevels - 1) /\
    exists pre,
      cmds = pre ++ [Texture.CmdImageBarrier Texture.VK_PIPELINE_STAGE_TRANSFER_BIT
                       Texture.VK_PIPELINE_STAGE_FRAGMENT_SHADER_BIT
                       (Texture.mkBarrier Texture.VK_IMAGE_LAYOUT_TRANSFER_DST_OPTIMAL
                          Texture.VK_IMAGE_LAYOUT_SHADER_READ_ONLY_OPTIMAL
                          Texture.VK_ACCESS_TRANSFER_WRITE_BIT Texture.VK_ACCESS_SHADER_READ_BIT
                          Texture.VK_IMAGE_ASPECT_COLOR_BIT 0 1)] /\
      Texture.layout_of (Texture.final_layouts (repeat Texture.VK_IMAGE_LAYOUT_UNDEFINED mipLevels) pre) 0 =
        Some Texture.VK_IMAGE_LAYOUT_SHADER_READ_ONLY_OPTIMAL.
Proof.
  intros Hn Hu. destruct (createImageFromTGAFile_trace format width height mipLevels Hn Hu)
    as (cmds & E & _ & L & B).
  destruct (createImageFromTGAFile_last format width height mipLevels Hn Hu) as (pre & E' & F & D).
  rewrite E in E'. injection E' as ->.
  exists (pre ++ [Texture.CmdImageBarrier 4096 128 (Texture.mkBarrier 7 5 4096 32 1 0 1)]).
  split; [exact E|]. split; [exact L|]. split; [exact B|]. split.
  - unfold Texture.VK_IMAGE_LAYOUT_UNDEFINED. rewrite blit_dst_layouts_app, D, app_nil_r. reflexivity.
  - exists pre. split; [reflexivity|].
    unfold Texture.VK_IMAGE_LAYOUT_UNDEFINED. rewrite F.
    destruct mipLevels as [|m]; [lia|]. reflexivity.
Qed.

Lemma createImageFromTGAFile_layout_mismatches_witness :
  exists cmds,
    Texture.createImageFromTGAFile_cmds Texture.VK_FORMAT_B8G8R8_SRGB 13 5 (Z.of_nat 4) = inr cmds /\
    length (Texture.layout_mismatches (repeat Texture.VK_IMAGE_LAYOUT_UNDEFINED 4) cmds) = 7%nat /\
    Texture.blits (Texture.layout_mismatches (repeat Texture.VK_IMAGE_LAYOUT_UNDEFINED 4) cmds) =
      Texture.blits cmds /\
    Texture.blit_dst_layouts (repeat Texture.VK_IMAGE_LAYOUT_UNDEFINED 4) cmds =
      [Some 0; Some 0; Some 0] /\
    exists pre,
      cmds = pre ++ [Texture.CmdImageBarrier 4096 128 (Texture.mkBarrier 7 5 4096 32 1 0 1)] /\
      Texture.layout_of (Texture.final_layouts (repeat Texture.VK_IMAGE_LAYOUT_UNDEFINED 4) pre) 0 =
        Some 5.
Proof.
  apply (createImageFromTGAFile_layout_mismatches Texture.VK_FORMAT_B8G8R8_SRGB 13 5 4).
  - lia.
  - apply Z.leb_le. reflexivity.
Defined.





(** X14: [createDepthBuffer]s layout transition always uses the DEPTH and STENCIL aspects, whatever [depthFormat] is, while its image view includes the stencil aspect only for [VK_FORMAT_D32_SFLOAT_S8_UINT] and [VK_FORMAT_D24_UNORM_S8_UINT]. *)
Theorem createDepthBuffer_aspect_mismatch (depthFormat : Z) :
  Texture.transitionImageLayout depthFormat 1 Texture.VK_IMAGE_LAYOUT_UNDEFINED
    Texture.VK_IMAGE_LAYOUT_DEPTH_STENCIL_ATTACHMENT_OPTIMAL =
    inr (Texture.CmdImageBarrier Texture.VK_PIPELINE_STAGE_TOP_OF_PIPE_BIT
           (Z.lor Texture.VK_PIPELINE_STAGE_EARLY_FRAGMENT_TESTS_BIT
                  Texture.VK_PIPELINE_STAGE_LATE_FRAGMENT_TESTS_BIT)
           (Texture.mkBarrier Texture.VK_IMAGE_LAYOUT_UNDEFINED
              Texture.VK_IMAGE_LAYOUT_DEPTH_STENCIL_ATTACHMENT_OPTIMAL 0
              (Z.lor Texture.VK_ACCESS_DEPTH_STENCIL_ATTACHMENT_READ_BIT
                     Texture.VK_ACCESS_DEPTH_STENCIL_ATTACHMENT_WRITE_BIT)
              (Z.lor Texture.VK_IMAGE_ASPECT_DEPTH_BIT Texture.VK_IMAGE_ASPECT_STENCIL_BIT) 0 1)) /\
  (Texture.createDepthBuffer_imageAspects depthFormat =
     Z.lor Texture.VK_IMAGE_ASPECT_DEPTH_BIT Texture.VK_IMAGE_ASPECT_STENCIL_BIT <->
   depthFormat = Texture.VK_FORMAT_D32_SFLOAT_S8_UINT \/
   depthFormat = Texture.VK_FORMAT_D24_UNORM_S8_UINT).
Proof.
  split; [reflexivity|].
  unfold Texture.createDepthBuffer_imageAspects.
  destruct (Z.eqb_spec depthFormat Texture.VK_FORMAT_D32_SFLOAT_S8_UINT) as [E1|E1];
    destruct (Z.eqb_spec depthFormat Texture.VK_FORMAT_D24_UNORM_S8_UINT) as [E2|E2];
    cbn [orb]; split; intros H; auto; try discriminate H; destruct H; contradiction.
Qed.

Lemma to_float_small (z : Z) : z < 2 ^ 24 -> Extent.to_float z = z.
Proof.
  intros H. unfold Extent.to_float. destruct (Z.ltb_spec z (2 ^ 24)); [reflexivity|lia].
Qed.

Lemma createSwapChain_exact (caps : VkSurfaceCapabilitiesKHR) (s : Extent.Sizes) :
  Extent.float_exact (getSwapImageSize caps) ->
  Extent.createSwapChain caps s =
    Some (Extent.mkSizes (getSwapImageSize caps) (Extent.depthExtent s)
            (Extent.framebufferExtent s) (Extent.scissorExtent s)).
Proof.
  intros (Hw & Hh). unfold Extent.createSwapChain.
  rewrite (to_float_small _ (proj2 Hw)), (to_float_small _ (proj2 Hh)).
  unfold Extent.float_to_u32.
  destruct (Z.leb_spec 0 (height (getSwapImageSize caps))); [|lia].
  destruct (Z.ltb_spec (height (getSwapImageSize caps)) (2 ^ 32)); [|lia].
  destruct (Z.leb_spec 0 (width (getSwapImageSize caps))); [|lia].
  destruct (Z.ltb_spec (width (getSwapImageSize caps)) (2 ^ 32)); [|lia].
  cbn [andb]. destruct (getSwapImageSize caps). reflexivity.
Qed.

Lemma last_cons_default {A : Type} (x : A) (l : list A) (d d' : A) :
  last (x :: l) d = last (x :: l) d'.
Proof.
  revert x. induction l as [|y l IH]; intros x; [reflexivity|].
  change (last (y :: l) d = last (y :: l) d'). apply IH.
Qed.

Lemma recreate_all_snoc (capss : list VkSurfaceCapabilitiesKHR) (caps : VkSurfaceCapabilitiesKHR)
    (s : Extent.Sizes) :
  Forall (fun c => Extent.float_exact (getSwapImageSize c)) (capss ++ [caps]) ->
  Extent.recreate_all (capss ++ [caps]) s =
    Some (Extent.mkSizes (getSwapImageSize caps)
            (last (map getSwapImageSize capss) (Extent.pipelineExtent s))
            (getSwapImageSize caps) (Extent.scissorExtent s)).
Proof.
  revert s. induction capss as [|c capss IH]; intros s Hall.
  - inversion Hall as [|? ? Hc _]; subst. cbn [app Extent.recreate_all].
    unfold Extent.recreate. rewrite createSwapChain_exact by exact Hc. reflexivity.
  - inversion Hall as [|? ? Hc Hrest]; subst. cbn [app Extent.recreate_all].
    unfold Extent.recreate at 1. rewrite createSwapChain_exact by exact Hc.
    rewrite (IH _ Hrest). cbn [Extent.makeFramebuffers Extent.pipelineExtent Extent.scissorExtent
                                Extent.depthExtent Extent.framebufferExtent Extent.createDepthBuffer].
    destruct capss as [|c' capss]; [reflexivity|].
    cbn [map].
    change (last (getSwapImageSize c :: getSwapImageSize c' :: map getSwapImageSize capss)
              (Extent.pipelineExtent s))
      with (last (getSwapImageSize c' :: map getSwapImageSize capss) (Extent.pipelineExtent s)).
    rewrite (last_cons_default _ _ (getSwapImageSize c) (Extent.pipelineExtent s)). reflexivity.
Qed.

Lemma last_map_default {A B : Type} (f : A -> B) (l : list A) (d : A) :
  last (map f l) (f d) = f (last l d).
Proof.
  induction l as [|a l IH]; [reflexivity|]. destruct l as [|a' l]; [reflexivity|].
  exact IH.
Qed.

(** X15: When the swap image size is below [2^24] on both sides, right after setup [pipelineInfo.extent], the depth image, the framebuffers and the pipelines scissor all have the swap image size. *)
Theorem setup_extents_agree (caps0 : VkSurfaceCapabilitiesKHR) :
  Extent.float_exact (getSwapImageSize caps0) ->
  Extent.run caps0 [] =
    Some (Extent.mkSizes (getSwapImageSize caps0) (getSwapImageSize caps0)
            (getSwapImageSize caps0) (getSwapImageSize caps0)).
Proof.
  intros H. unfold Extent.run, Extent.setup. rewrite createSwapChain_exact by exact H. reflexivity.
Qed.

(** X16: When all sizes are below [2^24], after one or more swap-chain rebuilds [pipelineInfo.extent] and the framebuffers have the newest size, the depth image has the size from before the last rebuild, and the scissor keeps the size from setup. *)
Theorem recreate_extents_lag (caps0 : VkSurfaceCapabilitiesKHR) (capss : list VkSurfaceCapabilitiesKHR)
    (caps : VkSurfaceCapabilitiesKHR) :
  Forall (fun c => Extent.float_exact (getSwapImageSize c)) (caps0 :: capss ++ [caps]) ->
  Extent.run caps0 (capss ++ [caps]) =
    Some (Extent.mkSizes (getSwapImageSize caps) (getSwapImageSize (last (caps0 :: capss) caps0))
            (getSwapImageSize caps) (getSwapImageSize caps0)).
Proof.
  intros Hall. inversion Hall as [|? ? H0 Hrest]; subst.
  unfold Extent.run, Extent.setup. rewrite createSwapChain_exact by exact H0.
  cbn [Extent.createGraphicsPipeline Extent.makeFramebuffers Extent.createDepthBuffer
       Extent.pipelineExtent Extent.depthExtent Extent.framebufferExtent Extent.scissorExtent].
  rewrite (recreate_all_snoc _ _ _ Hrest). cbn [Extent.pipelineExtent Extent.scissorExtent].
  unfold Extent.createGraphicsPipeline, Extent.makeFramebuffers, Extent.createDepthBuffer.
  cbn [Extent.pipelineExtent Extent.scissorExtent].
  rewrite last_map_default. destruct capss; reflexivity.
Qed.

Lemma recreate_extents_lag_witness :
  let c0 := mkCaps 2 3 (mkExtent2D 1280 720) (mkExtent2D 1 1) (mkExtent2D 4096 4096) in
  let c1 := mkCaps 2 3 (mkExtent2D 1920 1080) (mkExtent2D 1 1) (mkExtent2D 4096 4096) in
  let c2 := mkCaps 2 3 (mkExtent2D 800 600) (mkExtent2D 1 1) (mkExtent2D 4096 4096) in
  Extent.run c0 [c1; c2] =
    Some (Extent.mkSizes (mkExtent2D 800 600) (mkExtent2D 1920 1080)
            (mkExtent2D 800 600) (mkExtent2D 1280 720)).
Proof.
  intros c0 c1 c2.
  refine (recreate_extents_lag c0 [c1] c2 _).
  cbn [app]. repeat constructor; unfold Extent.float_exact; cbn; lia.
Defined.

Lemma setup_extents_agree_witness :
  let c0 := mkCaps 2 3 (mkExtent2D 1280 720) (mkExtent2D 1 1) (mkExtent2D 4096 4096) in
  Extent.run c0 [] =
    Some (Extent.mkSizes (mkExtent2D 1280 720) (mkExtent2D 1280 720)
            (mkExtent2D 1280 720) (mkExtent2D 1280 720)).
Proof.
  intros c0. refine (setup_extents_agree c0 _). unfold Extent.float_exact. cbn. lia.
Defined.
